(** * WhatsApp number filter: number normalizer, result cache, session
      manager and batch verification engine

    Shallow embedding of the classes [NumberValidator] and [WhatsAppService],
    and the properties of the specification checked against them.

    JavaScript strings are sequences of UTF-16 code units; a string is
    modelled as the list of its code units, so that every input the code
    can receive is covered, not only ASCII text. *)

From Stdlib Require Import ZArith NArith List Bool Lia Ascii String.
From stdpp Require Import gmap list.
Import ListNotations.

Local Open Scope nat_scope.

(** ** JavaScript strings *)

Abbreviation jsstring := (list N).

(** A string literal of the source, as code units. *)
Fixpoint js (s : string) : jsstring :=
  match s with
  | EmptyString => []
  | String a s' => N_of_ascii a :: js s'
  end.

(** [\d] of a JavaScript regular expression (no [u] flag): [0-9] only. *)
Definition isDigit (c : N) : bool := ((48 <=? c) && (c <=? 57))%N.

(** White space and line terminators removed by [String.prototype.trim]. *)
Definition isWhiteSpace (c : N) : bool :=
  ((9 <=? c) && (c <=? 13) || (c =? 32) || (c =? 160) || (c =? 5760)
   || (8192 <=? c) && (c <=? 8202) || (c =? 8232) || (c =? 8233)
   || (c =? 8239) || (c =? 8287) || (c =? 12288) || (c =? 65279))%N.

Fixpoint trimStart (s : jsstring) : jsstring :=
  match s with
  | c :: s' => if isWhiteSpace c then trimStart s' else s
  | [] => []
  end.

Definition trim (s : jsstring) : jsstring := rev (trimStart (rev (trimStart s))).

(** [s.startsWith(p)] *)
Fixpoint startsWith (s p : jsstring) {struct p} : bool :=
  match p, s with
  | [], _ => true
  | _ :: _, [] => false
  | a :: p', b :: s' => (a =? b)%N && startsWith s' p'
  end.

(** [s.substring(k)] and [s.substring(0, k)] *)
Definition substringFrom (k : nat) (s : jsstring) : jsstring := drop k s.
Definition substringTo (k : nat) (s : jsstring) : jsstring := take k s.

(** [s.replace(/\D/g, '')] *)
Definition removeNonDigits (s : jsstring) : jsstring := List.filter isDigit s.

Definition allDigits (s : jsstring) : bool := forallb isDigit s.

Module NumberValidator.

(** [this.pakistaniNetworks]: the prefix table, in source order. *)
Definition pakistaniNetworks : list (jsstring * jsstring) :=
  [ (js "300", js "Jazz"); (js "301", js "Jazz"); (js "302", js "Jazz");
    (js "303", js "Jazz"); (js "304", js "Jazz"); (js "305", js "Jazz");
    (js "306", js "Jazz"); (js "307", js "Jazz"); (js "308", js "Jazz");
    (js "309", js "Jazz");
    (js "340", js "Telenor"); (js "341", js "Telenor"); (js "342", js "Telenor");
    (js "343", js "Telenor"); (js "344", js "Telenor"); (js "345", js "Telenor");
    (js "346", js "Telenor"); (js "347", js "Telenor"); (js "348", js "Telenor");
    (js "349", js "Telenor");
    (js "310", js "Zong"); (js "311", js "Zong"); (js "312", js "Zong");
    (js "313", js "Zong"); (js "314", js "Zong"); (js "315", js "Zong");
    (js "316", js "Zong"); (js "317", js "Zong"); (js "318", js "Zong");
    (js "319", js "Zong");
    (js "320", js "Ufone"); (js "321", js "Ufone"); (js "322", js "Ufone");
    (js "323", js "Ufone"); (js "324", js "Ufone"); (js "325", js "Ufone");
    (js "326", js "Ufone"); (js "327", js "Ufone"); (js "328", js "Ufone");
    (js "329", js "Ufone");
    (js "355", js "SCOM");
    (js "354", js "NTC") ].

(** [this.pakistaniNetworks[code]] ([None] is [undefined]). *)
Fixpoint tableLookup (t : list (jsstring * jsstring)) (code : jsstring)
  : option jsstring :=
  match t with
  | [] => None
  | (k, v) :: t' => if bool_decide (k = code) then Some v else tableLookup t' code
  end.

(** [isValidNetworkCode]: [this.pakistaniNetworks.hasOwnProperty(code)] *)
Definition isValidNetworkCode (networkCode : jsstring) : bool :=
  match tableLookup pakistaniNetworks networkCode with
  | Some _ => true
  | None => false
  end.

(** The error messages of the validator, one constructor per message:
    - [EmptyOrInvalid]: 'Empty or invalid number'
    - [InvalidFormat]: 'Invalid number format'
    - [IntlLength]: 'Invalid international number length'
    - [IntlFormat]: 'Invalid international number format'
    - [MustStart92]: 'Number must start with +92'
    - [BadLength n]: 'Invalid length. Expected 10 digits after +92, got n'
    - [OnlyDigits]: 'Number must contain only digits after +92'
    - [MustStart3]: 'Pakistani mobile numbers must start with 3 after country code'
    - [BadNetworkCode c]: 'Invalid network code: c. Supported codes: ...' *)
Inductive verror :=
| EmptyOrInvalid
| InvalidFormat
| IntlLength
| IntlFormat
| MustStart92
| BadLength (n : nat)
| OnlyDigits
| MustStart3
| BadNetworkCode (code : jsstring).

(** The object returned by [validateNumber] and
    [validateInternationalNumber]; [None] is [null]. *)
Record validation := mkValidation {
  isValid : bool;
  originalNumber : jsstring;
  formattedNumber : option jsstring;
  error : option verror;
  network : option jsstring
}.

(** The object returned by [validatePakistaniNumber]. *)
Record pkValidation := mkPk {
  pkValid : bool;
  pkError : option verror;
  pkNetwork : option jsstring
}.

(** [cleanNumber].  The input is a string, so of the first guard only
    [!number] (the empty string) can hold. *)
Definition cleanNumber (number : jsstring) : jsstring :=
  match number with
  | [] => []
  | _ =>
    let cleaned := trim number in
    let cleaned :=
      if startsWith cleaned (js "+") then substringFrom 1 cleaned else cleaned in
    removeNonDigits cleaned
  end.

(** [/^\+\d{7,14}$/.test(s)] *)
Definition testPlusDigits (s : jsstring) : bool :=
  match s with
  | c :: r => (c =? 43)%N && allDigits r && (7 <=? length r) && (length r <=? 14)
  | [] => false
  end.

(** [/^\d{10}$/.test(s)] *)
Definition testTenDigits (s : jsstring) : bool :=
  allDigits s && (length s =? 10).

(** [validateInternationalNumber] *)
Definition validateInternationalNumber (cleaned : jsstring) : validation :=
  if (length cleaned <? 7) || (15 <? length cleaned) then
    mkValidation false cleaned None (Some IntlLength) (Some (js "International"))
  else
    let formattedNumber :=
      if negb (startsWith cleaned (js "+")) then
        if startsWith cleaned (js "00") then
          js "+" ++ substringFrom 2 cleaned
        else if (10 <=? length cleaned) && negb (startsWith cleaned (js "0")) then
          js "+" ++ cleaned
        else if startsWith cleaned (js "0") && (10 <=? length cleaned) then
          if (length cleaned =? 11) && startsWith cleaned (js "03") then
            js "+92" ++ substringFrom 1 cleaned
          else
            js "+" ++ cleaned
        else
          js "+" ++ cleaned
      else cleaned in
    if negb (testPlusDigits formattedNumber) then
      mkValidation false cleaned None (Some IntlFormat) (Some (js "International"))
    else
      mkValidation true cleaned (Some formattedNumber) None
        (Some (js "International")).

(** [3\d{8}] anchored at the head of [s]: the nine matched code units. *)
Definition matchMobile (s : jsstring) : option jsstring :=
  match s with
  | c :: r =>
    if (c =? 51)%N && (8 <=? length r) && allDigits (take 8 r)
    then Some (c :: take 8 r) else None
  | [] => None
  end.

(** [/92(3\d{8})|0?(3\d{8})/] tried at the head of [s]: the first
    alternative, then the second with its optional [0] taken greedily and
    given back on failure; the result is [match[1] || match[2]]. *)
Definition matchPatternHere (s : jsstring) : option jsstring :=
  match (if startsWith s (js "92") then matchMobile (drop 2 s) else None) with
  | Some m => Some m
  | None =>
    match (if startsWith s (js "0") then matchMobile (drop 1 s) else None) with
    | Some m => Some m
    | None => matchMobile s
    end
  end.

(** [cleaned.match(/92(3\d{8})|0?(3\d{8})/)]: the leftmost match. *)
Fixpoint matchPattern (s : jsstring) : option jsstring :=
  match matchPatternHere s with
  | Some m => Some m
  | None =>
    match s with
    | [] => None
    | _ :: s' => matchPattern s'
    end
  end.

(** [formatNumber]; [None] is [null]. *)
Definition formatNumber (cleaned : jsstring) : option jsstring :=
  if bool_decide (cleaned = []) || (length cleaned <? 7) then None
  else if startsWith cleaned (js "+") then Some cleaned
  else if startsWith cleaned (js "92") && (length cleaned =? 12) then
    Some (js "+" ++ cleaned)
  else if startsWith cleaned (js "0") && (length cleaned =? 11) then
    Some (js "+92" ++ substringFrom 1 cleaned)
  else if startsWith cleaned (js "3") && (length cleaned =? 10) then
    Some (js "+92" ++ cleaned)
  else if (length cleaned =? 10) && isValidNetworkCode (substringTo 3 cleaned) then
    Some (js "+92" ++ cleaned)
  else
    match (if 12 <? length cleaned then matchPattern cleaned else None) with
    | Some mobileDigits => Some (js "+92" ++ mobileDigits)
    | None =>
      if (7 <=? length cleaned) && (length cleaned <=? 15) then
        if startsWith cleaned (js "00") then Some (js "+" ++ substringFrom 2 cleaned)
        else if (10 <=? length cleaned) && negb (startsWith cleaned (js "0")) then
          Some (js "+" ++ cleaned)
        else Some (js "+" ++ cleaned)
      else None
    end.

(** [validatePakistaniNumber] *)
Definition validatePakistaniNumber (formattedNumber : jsstring) : pkValidation :=
  if bool_decide (formattedNumber = []) || negb (startsWith formattedNumber (js "+92"))
  then mkPk false (Some MustStart92) None
  else
    let remainingDigits := substringFrom 3 formattedNumber in
    if negb (length remainingDigits =? 10) then
      mkPk false (Some (BadLength (length remainingDigits))) None
    else if negb (testTenDigits remainingDigits) then
      mkPk false (Some OnlyDigits) None
    else if negb (startsWith remainingDigits (js "3")) then
      mkPk false (Some MustStart3) None
    else
      let networkCode := substringTo 3 remainingDigits in
      if negb (isValidNetworkCode networkCode) then
        mkPk false (Some (BadNetworkCode networkCode)) None
      else mkPk true None (tableLookup pakistaniNetworks networkCode).

(** [validateNumber].  No call in the [try] block throws on a string, so
    the [catch] branch is not reachable and has no counterpart here. *)
Definition validateNumber (number : jsstring) : validation :=
  let cleaned := cleanNumber number in
  match cleaned with
  | [] => mkValidation false number None (Some EmptyOrInvalid) None
  | _ =>
    let internationalValidation := validateInternationalNumber cleaned in
    if isValid internationalValidation then internationalValidation
    else
      match formatNumber cleaned with
      | None => mkValidation false number None (Some InvalidFormat) None
      | Some formatted =>
        let v := validatePakistaniNumber formatted in
        mkValidation (pkValid v) number
          (if pkValid v then Some formatted else None)
          (pkError v) (pkNetwork v)
      end
  end.

(** [validateNumbers], on an array. *)
Definition validateNumbers (numbers : list jsstring) : list validation :=
  map validateNumber numbers.

(** The object returned by [getNetworkInfo]; [name] is a table entry,
    [None] when there is none. *)
Record networkInfo := mkInfo {
  code : jsstring;
  name : option jsstring;
  fullNumber : jsstring
}.

(** [getNetworkInfo]; [None] is [null]. *)
Definition getNetworkInfo (formattedNumber : jsstring) : option networkInfo :=
  let validation := validatePakistaniNumber formattedNumber in
  if negb (pkValid validation) then None
  else
    let networkCode := take 3 (drop 3 formattedNumber) in
    Some (mkInfo networkCode (tableLookup pakistaniNetworks networkCode)
            formattedNumber).

(** [formatForWhatsApp]; the argument may be [null]. *)
Definition formatForWhatsApp (formattedNumber : option jsstring) : option jsstring :=
  match formattedNumber with
  | Some f =>
    if negb (bool_decide (f = [])) && startsWith f (js "+")
    then Some (substringFrom 1 f) else Some f
  | None => None
  end.

(** The number a key of the table denotes. *)
Definition keyValue (k : jsstring) : N :=
  fold_left (fun acc c => acc * 10 + (c - 48))%N k 0%N.

Fixpoint insertKey (k : jsstring) (ks : list jsstring) : list jsstring :=
  match ks with
  | [] => [k]
  | k' :: ks' =>
    if (keyValue k <=? keyValue k')%N then k :: ks else k' :: insertKey k ks'
  end.

(** [getSupportedNetworks]: [Object.keys(this.pakistaniNetworks)].  The
    keys of the table are all integer indices, which [Object.keys] lists in
    ascending numeric order. *)
Definition getSupportedNetworks : list jsstring :=
  foldr insertKey [] (map fst pakistaniNetworks).

(** [isPakistaniMobile] *)
Definition isPakistaniMobile (number : jsstring) : bool :=
  let cleaned := cleanNumber number in
  if startsWith cleaned (js "92") && (12 <=? length cleaned) then true
  else if startsWith cleaned (js "03") && (11 <=? length cleaned) then true
  else if startsWith cleaned (js "3") && (10 <=? length cleaned) then
    isValidNetworkCode (substringTo 3 cleaned)
  else false.

End NumberValidator.

Import NumberValidator.

(** * The service: result cache, pacing gate, batch engine, sessions *)

(** The result object built by [checkNumber] and [checkNumbers]. *)
Module CheckResult.

Inductive status := valid | invalid | error.

(** [hasWhatsApp] is [null], [undefined] (the reply held no entry) or a
    boolean. *)
Inductive flag := null | undefined | boolean (b : bool).

(** The [error] field: the validator's message, ['Check failed: ' + m],
    or the message [m] of an exception caught by [checkNumbers]. *)
Inductive message :=
| validator (e : verror)
| checkFailed (m : jsstring)
| thrown (m : jsstring).

(** [fromCache] is absent from the result built for a rejected number. *)
Record t := mk {
  originalNumber : jsstring;
  formattedNumber : option jsstring;
  status_ : status;
  hasWhatsApp : flag;
  error_ : option message;
  network : option jsstring;
  fromCache : option bool
}.

End CheckResult.

Module WhatsAppService.

Local Open Scope Z_scope.

(** An entry of [this.numberCache]. *)
Record cacheEntry := mkEntry {
  result : CheckResult.t;
  timestamp : Z
}.

(** An entry of [this.userSessions]. *)
Record userSession := mkSession {
  isReady : bool;
  isInitializing : bool;
  socketId : jsstring;
  manuallyDisconnected : bool;
  initStartTime : Z
}.

(** A Baileys socket, known by the order of its construction; [paired]
    tells whether its auth state was loaded from stored credentials. *)
Record socket := mkSocket {
  sockId : nat;
  paired : bool
}.

(** The fields of the service that the modelled methods read or write.
    A [Map] accepts any value as key: the cache is keyed by
    [validation.formattedNumber], a string or [null]. *)
Record service := mkService {
  clients : gmap jsstring socket;
  userSessions : gmap jsstring userSession;
  numberCache : gmap (option jsstring) cacheEntry;
  lastCheckTime : Z
}.

Definition cacheExpiry : Z := 60 * 60 * 1000.
Definition checkInterval : Z := 2000.
Definition maxConcurrent : nat := 5.

(** The state set up by the constructor. *)
Definition newService : service := mkService ∅ ∅ ∅ 0.

Definition setCache (c : gmap (option jsstring) cacheEntry) (s : service) : service :=
  mkService (clients s) (userSessions s) c (lastCheckTime s).

Definition setLastCheckTime (t : Z) (s : service) : service :=
  mkService (clients s) (userSessions s) (numberCache s) t.

Definition setRegistry (cl : gmap jsstring socket) (us : gmap jsstring userSession)
    (s : service) : service :=
  mkService cl us (numberCache s) (lastCheckTime s).

(** ** Result cache *)

(** [getCachedResult] at clock reading [now]: the result and the cache
    it leaves. *)
Definition getCachedResult (now : Z) (cacheKey : option jsstring)
    (cache : gmap (option jsstring) cacheEntry)
  : option CheckResult.t * gmap (option jsstring) cacheEntry :=
  match cache !! cacheKey with
  | Some cached =>
    if now - timestamp cached <? cacheExpiry then (Some (result cached), cache)
    else (None, delete cacheKey cache)
  | None => (None, cache)
  end.

(** [cleanupCache] *)
Definition cleanupCache (now : Z) (cache : gmap (option jsstring) cacheEntry)
  : gmap (option jsstring) cacheEntry :=
  filter (fun kv => ¬ (cacheExpiry <= now - timestamp kv.2)) cache.

(** [setCachedResult] *)
Definition setCachedResult (now : Z) (cacheKey : option jsstring)
    (r : CheckResult.t) (cache : gmap (option jsstring) cacheEntry)
  : gmap (option jsstring) cacheEntry :=
  match CheckResult.status_ r with
  | CheckResult.error => cache
  | _ =>
    let cache := <[cacheKey := mkEntry r now]> cache in
    if (1000 <? size cache)%nat then cleanupCache now cache else cache
  end.

(** [clearCache] *)
Definition clearCache (s : service) : service := setCache ∅ s.

(** ** Pacing gate *)

(** [waitForRateLimit] up to its [await]: [Some wake] when the caller
    sleeps, until the clock reads [wake] or more; [None] when it does not
    sleep and has stored the clock reading. *)
Definition waitForRateLimit_arrive (now : Z) (s : service) : service * option Z :=
  let timeSinceLastCheck := now - lastCheckTime s in
  if timeSinceLastCheck <? checkInterval then
    let waitTime := checkInterval - timeSinceLastCheck in
    (s, Some (now + waitTime))
  else (setLastCheckTime now s, None).

(** [waitForRateLimit] after its [await]. *)
Definition waitForRateLimit_resume (now : Z) (s : service) : service :=
  setLastCheckTime now s.

(** ** Checking one number *)

(** The guard of [checkNumber] and [checkNumbers]:
    [!socket || !userSession || !userSession.isReady] does not hold. *)
Definition sessionReady (s : service) (userId : jsstring) : bool :=
  match clients s !! userId, userSessions s !! userId with
  | Some _, Some us => isReady us
  | _, _ => false
  end.

(** What [socket.onWhatsApp] settles with: a list whose first entry, when
    there is one, tells whether the number exists; or a failure. *)
Inductive reply :=
| replied (first : option bool)
| failed (m : jsstring).

(** Where the asynchronous callback of [processBatch] for one number
    stands. *)
Inductive worker :=
| Pending                                 (* not called yet *)
| Sleeping (v : validation) (wake : Z)    (* in [waitForRateLimit], asleep *)
| Passed (v : validation)                 (* [waitForRateLimit] has returned *)
| Querying (v : validation)               (* awaiting [socket.onWhatsApp] *)
| Settled (r : CheckResult.t)             (* [checkNumber] fulfilled with [r] *)
| Rejected (m : jsstring)                 (* [checkNumber] threw *)
| Finished.                               (* result slot written *)

Definition notReadyMessage : jsstring := js "WhatsApp socket is not ready for this user".

Definition invalidResult (number : jsstring) (v : validation) : CheckResult.t :=
  CheckResult.mk number None CheckResult.invalid CheckResult.null
    (option_map CheckResult.validator (NumberValidator.error v)) None None.

(** [{ ...cachedResult, originalNumber: number, fromCache: true }] *)
Definition cachedResultFor (number : jsstring) (c : CheckResult.t) : CheckResult.t :=
  CheckResult.mk number (CheckResult.formattedNumber c) (CheckResult.status_ c)
    (CheckResult.hasWhatsApp c) (CheckResult.error_ c) (CheckResult.network c)
    (Some true).

Definition validResult (number : jsstring) (v : validation) (first : option bool)
  : CheckResult.t :=
  CheckResult.mk number (NumberValidator.formattedNumber v) CheckResult.valid
    (match first with
     | Some b => CheckResult.boolean b
     | None => CheckResult.undefined
     end)
    None (NumberValidator.network v) (Some false).

Definition failedResult (number : jsstring) (v : validation) (m : jsstring)
  : CheckResult.t :=
  CheckResult.mk number (NumberValidator.formattedNumber v) CheckResult.error
    CheckResult.null (Some (CheckResult.checkFailed m))
    (NumberValidator.network v) (Some false).

(** The result written by the [catch] block of [processBatch]. *)
Definition errorResult (number m : jsstring) : CheckResult.t :=
  CheckResult.mk number None CheckResult.error CheckResult.null
    (Some (CheckResult.thrown m)) None (Some false).

(** [checkNumber] from its call to its first [await] or its return. *)
Definition checkNumber_begin (now : Z) (number userId : jsstring) (s : service)
  : service * worker :=
  if negb (sessionReady s userId) then (s, Rejected notReadyMessage)
  else
    let validation := validateNumber number in
    if negb (NumberValidator.isValid validation) then
      (s, Settled (invalidResult number validation))
    else
      let cacheKey := NumberValidator.formattedNumber validation in
      match getCachedResult now cacheKey (numberCache s) with
      | (Some cachedResult, cache) =>
        (setCache cache s, Settled (cachedResultFor number cachedResult))
      | (None, cache) =>
        match waitForRateLimit_arrive now (setCache cache s) with
        | (s', Some wake) => (s', Sleeping validation wake)
        | (s', None) => (s', Passed validation)
        end
      end.

(** [checkNumber] after [socket.onWhatsApp] has settled. *)
Definition checkNumber_reply (now : Z) (number : jsstring) (v : validation)
    (r : reply) (s : service) : service * worker :=
  match r with
  | replied first =>
    let checkResult := validResult number v first in
    (setCache (setCachedResult now (NumberValidator.formattedNumber v)
                 checkResult (numberCache s)) s,
     Settled checkResult)
  | failed m => (s, Settled (failedResult number v m))
  end.

(** ** Checking a batch *)

(** The locals of one [checkNumbers] call: the arguments, the [results]
    array with its holes, the [completed] counter, the calls made to
    [progressCallback], the loop index [i] and the callbacks of the batch
    being processed.  [clock] is the clock reading of the last step and
    [queries] the instants at which [socket.onWhatsApp] was called. *)
Record job := mkJob {
  numbers : list jsstring;
  userId : jsstring;
  results : list (option CheckResult.t);
  completed : nat;
  progress : list (nat * nat * jsstring);
  batchStart : nat;
  workers : list worker;
  clock : Z;
  queries : list (jsstring * Z)
}.

Definition setWorker (k : nat) (w : worker) (now : Z) (j : job) : job :=
  mkJob (numbers j) (userId j) (results j) (completed j) (progress j)
    (batchStart j) (<[k := w]> (workers j)) now (queries j).

Definition logQuery (now : Z) (j : job) : job :=
  mkJob (numbers j) (userId j) (results j) (completed j) (progress j)
    (batchStart j) (workers j) (clock j) (queries j ++ [(userId j, now)]).

(** [results[actualIndex] = r; completed++; progressCallback(...)] *)
Definition writeResult (k : nat) (number : jsstring) (r : CheckResult.t)
    (now : Z) (j : job) : job :=
  mkJob (numbers j) (userId j)
    (<[(batchStart j + k)%nat := Some r]> (results j))
    (S (completed j))
    (progress j ++ [(S (completed j), length (numbers j), number)])
    (batchStart j) (<[k := Finished]> (workers j)) now (queries j).

(** [numbers.slice(i, i + this.maxConcurrent)] *)
Definition batchAt (i : nat) (numbers : list jsstring) : list jsstring :=
  take maxConcurrent (drop i numbers).

Definition nextBatch (now : Z) (j : job) : job :=
  let i := (batchStart j + maxConcurrent)%nat in
  mkJob (numbers j) (userId j) (results j) (completed j) (progress j)
    i (replicate (length (batchAt i (numbers j))) Pending) now (queries j).

Definition isPending (w : worker) : bool :=
  match w with Pending => true | _ => false end.

Definition isFinished (w : worker) : bool :=
  match w with Finished => true | _ => false end.

(** The index of the first callback that [batch.map] has not called yet. *)
Fixpoint firstPending (ws : list worker) : option nat :=
  match ws with
  | [] => None
  | w :: ws' => if isPending w then Some O else option_map S (firstPending ws')
  end.

(** What can happen next.  [batch.map] calls the callbacks one after the
    other without yielding ([Start]); every other step resumes one callback
    after an [await], in an order fixed by timers and by the network.
    Handlers of other requests may run between two steps: they may replace
    the session registry ([Registry]) or empty the cache ([CacheCleared]),
    and another [checkNumbers] call may take a step of [checkNumber] on the
    same service ([OtherBegin], [OtherWake], [OtherReply]). *)
Inductive event :=
| Start (now : Z)
| Wake (k : nat) (now : Z)
| Query (k : nat) (now : Z)
| Reply (k : nat) (now : Z) (r : reply)
| Finish (k : nat) (now : Z)
| NextBatch (now : Z)
| Registry (cl : gmap jsstring socket) (us : gmap jsstring userSession)
| CacheCleared
| OtherBegin (now : Z) (number userId : jsstring)
| OtherWake (now : Z)
| OtherReply (now : Z) (number : jsstring) (r : reply).

Inductive checkError :=
| NotReady        (* 'WhatsApp socket is not ready for this user' *)
| InvalidArray    (* 'Invalid numbers array' *)
| TooMany.        (* 'Maximum 5000 numbers allowed at once' *)

(** [checkNumbers] up to the first call of [processBatch]. *)
Definition checkNumbers (now : Z) (numbers : list jsstring) (userId : jsstring)
    (s : service) : checkError + job :=
  if negb (sessionReady s userId) then inl NotReady
  else if (length numbers =? 0)%nat then inl InvalidArray
  else if (5000 <? length numbers)%nat then inl TooMany
  else inr (mkJob numbers userId (replicate (length numbers) None) O []
              O (replicate (length (batchAt O numbers)) Pending) now []).

(** The number handled by callback [k] of the current batch. *)
Definition numberOf (k : nat) (j : job) : option jsstring :=
  numbers j !! (batchStart j + k)%nat.

(** One step of a [checkNumbers] call; [None] when the event cannot
    happen in this state. *)
Definition step (e : event) (c : service * job) : option (service * job) :=
  let '(s, j) := c in
  match e with
  | Start now =>
    if now <? clock j then None else
    match firstPending (workers j) with
    | Some k =>
      match numberOf k j with
      | Some number =>
        let '(s', w) := checkNumber_begin now number (userId j) s in
        Some (s', setWorker k w now j)
      | None => None
      end
    | None => None
    end
  | Wake k now =>
    if (now <? clock j) || existsb isPending (workers j) then None else
    match workers j !! k with
    | Some (Sleeping v wake) =>
      if now <? wake then None
      else Some (waitForRateLimit_resume now s, setWorker k (Passed v) now j)
    | _ => None
    end
  | Query k now =>
    if (now <? clock j) || existsb isPending (workers j) then None else
    match workers j !! k with
    | Some (Passed v) => Some (s, logQuery now (setWorker k (Querying v) now j))
    | _ => None
    end
  | Reply k now r =>
    if (now <? clock j) || existsb isPending (workers j) then None else
    match workers j !! k, numberOf k j with
    | Some (Querying v), Some number =>
      let '(s', w) := checkNumber_reply now number v r s in
      Some (s', setWorker k w now j)
    | _, _ => None
    end
  | Finish k now =>
    if (now <? clock j) || existsb isPending (workers j) then None else
    match workers j !! k, numberOf k j with
    | Some (Settled r), Some number => Some (s, writeResult k number r now j)
    | Some (Rejected m), Some number =>
      Some (s, writeResult k number (errorResult number m) now j)
    | _, _ => None
    end
  | NextBatch now =>
    if forallb isFinished (workers j)
       && (batchStart j + maxConcurrent <? length (numbers j))%nat
       && (clock j + 1000 <=? now)
    then Some (s, nextBatch now j) else None
  | Registry cl us =>
    if existsb isPending (workers j) then None
    else Some (setRegistry cl us s, j)
  | CacheCleared =>
    if existsb isPending (workers j) then None
    else Some (clearCache s, j)
  | OtherBegin now number userId =>
    if existsb isPending (workers j) then None
    else Some (fst (checkNumber_begin now number userId s), j)
  | OtherWake now =>
    if existsb isPending (workers j) then None
    else Some (waitForRateLimit_resume now s, j)
  | OtherReply now number r =>
    if existsb isPending (workers j) then None
    else Some (fst (checkNumber_reply now number (validateNumber number) r s), j)
  end.

(** A run: the steps taken in order. *)
Fixpoint run (es : list event) (c : service * job) : option (service * job) :=
  match es with
  | [] => Some c
  | e :: es' =>
    match step e c with
    | Some c' => run es' c'
    | None => None
    end
  end.

(** The value [checkNumbers] resolves with, once the last batch is done. *)
Definition returned (j : job) : option (list (option CheckResult.t)) :=
  if forallb isFinished (workers j)
     && negb (batchStart j + maxConcurrent <? length (numbers j))%nat
  then Some (results j) else None.
(** How many steps callback [w] is away from having written its slot, and
    a bound on the steps a call is away from returning. *)
Definition weight (w : worker) : nat :=
  match w with
  | Pending => 5
  | Sleeping _ _ => 4
  | Passed _ => 3
  | Querying _ => 2
  | Settled _ | Rejected _ => 1
  | Finished => 0
  end.

Definition remaining (j : job) : nat :=
  list_sum (map weight (workers j))
  + 6 * (length (numbers j) - batchStart j - length (workers j)).

(** The steps of the call itself, as opposed to those of other handlers. *)
Definition ownStep (e : event) : bool :=
  match e with
  | Start _ | Wake _ _ | Query _ _ | Reply _ _ _ | Finish _ _ | NextBatch _ => true
  | _ => false
  end.

(** ** Sessions *)

(** What the service sends to a browser socket with [io.to(id).emit]. *)
Inductive emission :=
| whatsapp_ready
| whatsapp_status (status : jsstring)
| whatsapp_disconnected (manualDisconnect : bool).

(** The service together with what it acts upon: the directories below
    [baseSessionPath], by name, each with a flag telling whether it holds
    the saved credentials of a paired account; the number of sockets made
    by [makeWASocket] so far; the sockets whose [end] was called; and the
    messages emitted. *)
Record world := mkWorld {
  svc : service;
  disk : gmap jsstring bool;
  made : nat;
  ended : list nat;
  emitted : list (jsstring * emission)
}.

Definition newWorld : world := mkWorld newService ∅ O [] [].

Definition setSvc (s : service) (w : world) : world :=
  mkWorld s (disk w) (made w) (ended w) (emitted w).

Definition setDisk (d : gmap jsstring bool) (w : world) : world :=
  mkWorld (svc w) d (made w) (ended w) (emitted w).

Definition emit (to : jsstring) (e : emission) (w : world) : world :=
  mkWorld (svc w) (disk w) (made w) (ended w) (emitted w ++ [(to, e)]).

(** Assignment to the fields of the session object of [userId], when the
    registry holds one. *)
Definition updateSession (userId : jsstring) (f : userSession -> userSession)
    (w : world) : world :=
  setSvc (setRegistry (clients (svc w)) (alter f userId (userSessions (svc w)))
            (svc w)) w.

Definition putSession (userId : jsstring) (us : userSession) (w : world) : world :=
  setSvc (setRegistry (clients (svc w)) (<[userId := us]> (userSessions (svc w)))
            (svc w)) w.

(** [socket.end(); this.clients.delete(userId)] when [userId] has a
    socket ([end] is taken not to throw). *)
Definition endClient (userId : jsstring) (w : world) : world :=
  match clients (svc w) !! userId with
  | Some sock =>
    mkWorld (setRegistry (delete userId (clients (svc w))) (userSessions (svc w))
               (svc w))
      (disk w) (made w) (ended w ++ [sockId sock]) (emitted w)
  | None => w
  end.

(** [us.isReady = r; us.isInitializing = i] *)
Definition withFlags (r i : bool) (us : userSession) : userSession :=
  mkSession r i (socketId us) (manuallyDisconnected us) (initStartTime us).

(** The assignments of [restart] to the session object. *)
Definition resetSession (us : userSession) : userSession :=
  mkSession false false (socketId us) false (initStartTime us).

Definition stuckThreshold : Z := 60000.

(** The directory from which [initializeUserSession] loads the
    credentials of [userId], below [baseSessionPath]. *)
Definition userSessionPath (userId : jsstring) : jsstring := js "user-" ++ userId.

(** [initializeUserSession] from its call to its first [await]; the
    boolean tells whether it goes on to build a socket. *)
Definition initializeUserSession_begin (now : Z) (userId socketId : jsstring)
    (w : world) : world * bool :=
  let unstuck : option world :=
    match userSessions (svc w) !! userId with
    | Some us =>
      if isInitializing us then
        let initStart := if initStartTime us =? 0 then now else initStartTime us in
        let timeDiff := now - initStart in
        if stuckThreshold <? timeDiff then
          let w := updateSession userId (withFlags (isReady us) false) w in
          let w := endClient userId w in
          Some (emit socketId (whatsapp_status (js "timeout")) w)
        else None
      else Some w
    | None => Some w
    end in
  match unstuck with
  | None => (w, false)
  | Some w =>
    let ready :=
      match userSessions (svc w) !! userId with
      | Some us => isReady us
      | None => false
      end in
    if ready then
      (emit socketId (whatsapp_status (js "ready")) (emit socketId whatsapp_ready w),
       false)
    else
      let w := putSession userId (mkSession false true socketId false now) w in
      (emit socketId (whatsapp_status (js "initializing")) w, true)
  end.

(** The rest of [initializeUserSession]: with [ok], the directory is
    ensured, the auth state is loaded from it and a socket is made and
    stored; without, the [catch] block runs. *)
Definition initializeUserSession_connect (ok : bool) (userId socketId : jsstring)
    (w : world) : world :=
  if ok then
    let dir := userSessionPath userId in
    let stored := default false (disk w !! dir) in
    let disk' := match disk w !! dir with
                 | Some _ => disk w
                 | None => <[dir := false]> (disk w)
                 end in
    mkWorld (setRegistry (<[userId := mkSocket (made w) stored]> (clients (svc w)))
               (userSessions (svc w)) (svc w))
      disk' (S (made w)) (ended w) (emitted w)
  else
    emit socketId (whatsapp_status (js "error"))
      (updateSession userId (fun us => withFlags (isReady us) false us) w).

(** [initializeUserSession], run without interruption. *)
Definition initializeUserSession (now : Z) (ok : bool) (userId socketId : jsstring)
    (w : world) : world :=
  match initializeUserSession_begin now userId socketId w with
  | (w', true) => initializeUserSession_connect ok userId socketId w'
  | (w', false) => w'
  end.

(** [saveCreds], called on 'creds.update' once the account is paired. *)
Definition saveCreds (userId : jsstring) (w : world) : world :=
  setDisk (<[userSessionPath userId := true]> (disk w)) w.

(** The 'connection.update' handler for [connection === 'open']. *)
Definition connectionOpen (userId socketId : jsstring) (w : world) : world :=
  emit socketId (whatsapp_status (js "ready"))
    (emit socketId whatsapp_ready
       (updateSession userId (withFlags true false) w)).

(** The 'connection.update' handler for [connection === 'close']; the
    boolean is [shouldReconnect]: a call of [initializeUserSession] is
    scheduled 3 seconds later. *)
Definition connectionClose (loggedOut : bool) (userId socketId : jsstring)
    (w : world) : world * bool :=
  let wasManuallyDisconnected :=
    match userSessions (svc w) !! userId with
    | Some us => manuallyDisconnected us
    | None => false
    end in
  let shouldReconnect := negb loggedOut && negb wasManuallyDisconnected in
  (emit socketId (whatsapp_disconnected wasManuallyDisconnected)
     (updateSession userId (withFlags false false) w),
   shouldReconnect).

(** The directory that [restart] removes, below [baseSessionPath]. *)
Definition restartSessionPath (userId : jsstring) : jsstring :=
  js "session-" ++ userId.

(** [restart] up to its [sleep]. *)
Definition restart_begin (userId : jsstring) (w : world) : world :=
  let w := endClient userId w in
  let w := updateSession userId resetSession w in
  setDisk (delete (restartSessionPath userId) (disk w)) w.

(** [restart], called at [now]; its [sleep(2000)] ends at [now'].  [None]
    when the timer cannot have fired at [now']. *)
Definition restart (now now' : Z) (ok : bool) (userId socketId : jsstring)
    (w : world) : option world :=
  if now' <? now + 2000 then None
  else Some (initializeUserSession now' ok userId socketId (restart_begin userId w)).

(** [getStatus] *)
Definition getStatus (userId : jsstring) (w : world) : bool * bool * bool :=
  match userSessions (svc w) !! userId with
  | Some us => (isReady us, isInitializing us, bool_decide (is_Some (clients (svc w) !! userId)))
  | None => (false, false, bool_decide (is_Some (clients (svc w) !! userId)))
  end.

(** ** Further methods of the service *)

(** The identifier that [checkNumber] passes to [socket.onWhatsApp]:
    [formatForWhatsApp(validation.formattedNumber) + '@s.whatsapp.net']. *)
Definition whatsappId (v : validation) : jsstring :=
  match formatForWhatsApp (NumberValidator.formattedNumber v) with
  | Some whatsappNumber => whatsappNumber ++ js "@s.whatsapp.net"
  | None => js "null@s.whatsapp.net"
  end.

(** The assignments of [shutdown] to the session object. *)
Definition markDisconnected (us : userSession) : userSession :=
  mkSession false false (socketId us) true (initStartTime us).

(** [shutdown(userId)] up to its return.  A falsy [userId] ([null], the
    default, or the empty string) shuts every client down: each socket is
    ended and both registries are cleared.  The sockets are ended in the
    order of the registry's insertions, which is not kept here; nothing
    below depends on the order within [ended]. *)
Definition shutdown (userId : option jsstring) (w : world) : world :=
  match userId with
  | Some (c :: u') =>
    let userId := c :: u' in
    let w := updateSession userId markDisconnected w in
    let w := endClient userId w in
    setDisk (delete (restartSessionPath userId) (disk w)) w
  | _ =>
    mkWorld (setRegistry ∅ ∅ (svc w)) (disk w) (made w)
      (ended w ++ map (fun kv => sockId kv.2) (map_to_list (clients (svc w))))
      (emitted w)
  end.

(** The callback that [shutdown(userId)] schedules one second later:
    [this.userSessions.delete(userId)]. *)
Definition shutdown_expire (userId : jsstring) (w : world) : world :=
  setSvc (setRegistry (clients (svc w)) (delete userId (userSessions (svc w)))
            (svc w)) w.

(** [s.replace(p, '')] for a string pattern [p]: the first occurrence of
    [p] is removed. *)
Fixpoint removeFirst (p s : jsstring) : jsstring :=
  if startsWith s p then drop (length p) s
  else match s with
       | [] => []
       | c :: s' => c :: removeFirst p s'
       end.


(** The directory that [forceRestart] removes, below [baseSessionPath]. *)
Definition forceRestartSessionPath (userId : jsstring) : jsstring :=
  js "user-" ++ removeFirst (js "user_") userId.

(** [forceRestart] up to its call of [initializeUserSession]. *)
Definition forceRestart_begin (userId socketId : jsstring) (w : world) : world :=
  let w := endClient userId w in
  let w := shutdown_expire userId w in
  let w := setDisk (delete (forceRestartSessionPath userId) (disk w)) w in
  emit socketId (whatsapp_status (js "force_restarting")) w.


(** What the handlers of the service may do to the world, one call or
    continuation at a time. *)
Inductive action :=
| Begin (now : Z) (userId socketId : jsstring)
| Connect (ok : bool) (userId socketId : jsstring)
| CredsUpdate (userId : jsstring)
| Open (userId socketId : jsstring)
| Close (loggedOut : bool) (userId socketId : jsstring)
| RestartBegin (userId : jsstring)
| ForceRestartBegin (userId socketId : jsstring)
| Shutdown (userId : option jsstring)
| ShutdownExpire (userId : jsstring).

Definition act (a : action) (w : world) : world :=
  match a with
  | Begin now u sock => (initializeUserSession_begin now u sock w).1
  | Connect ok u sock => initializeUserSession_connect ok u sock w
  | CredsUpdate u => saveCreds u w
  | Open u sock => connectionOpen u sock w
  | Close loggedOut u sock => (connectionClose loggedOut u sock w).1
  | RestartBegin u => restart_begin u w
  | ForceRestartBegin u sock => forceRestart_begin u sock w
  | Shutdown u => shutdown u w
  | ShutdownExpire u => shutdown_expire u w
  end.

End WhatsAppService.

(** ** The browser side: what is sent for checking *)

Module WhatsAppFilter.

(** [s.split('\n')] *)
Fixpoint splitLines (s : jsstring) : list jsstring :=
  match s with
  | [] => [[]]
  | c :: s' =>
    if (c =? 10)%N then [] :: splitLines s'
    else match splitLines s' with
         | l :: ls => (c :: l) :: ls
         | [] => [[c]]
         end
  end.

(** [/\d/.test(line)] *)
Definition hasDigit (line : jsstring) : bool := existsb isDigit line.

(** [parseNumbers] *)
Definition parseNumbers (input : jsstring) : list jsstring :=
  match trim input with
  | [] => []
  | _ =>
    List.filter hasDigit
      (List.filter (fun line => (0 <? length line)%nat)
         (map trim (splitLines input)))
  end.

End WhatsAppFilter.

(** ** Concrete states and runs used as examples *)

Module Scenario.

Import WhatsAppService.

Local Open Scope Z_scope.

Definition userA : jsstring := js "user_1".
Definition userB : jsstring := js "user_2".

(** A service on which [userA] and [userB] each have a ready session. *)
Definition readyService : service :=
  mkService
    {[ userA := mkSocket 0 true; userB := mkSocket 1 true ]}
    {[ userA := mkSession true false (js "socketA") false 1000;
       userB := mkSession true false (js "socketB") false 1500 ]}
    ∅ 0.

Definition threeNumbers : list jsstring :=
  [js "03211234567"; js "notanumber"; js "+14155550123"].

(** The three callbacks start together; the third number is answered and
    written first, then the rejected one, then the first, whose query
    fails. *)
Definition outOfOrder : list event :=
  [ Start 10000; Start 10000; Start 10000;
    Query 0 10000; Wake 2 12000; Query 2 12000;
    Reply 2 12050 (replied (Some false)); Finish 2 12050;
    Finish 1 12051;
    Reply 0 12100 (failed (js "timeout")); Finish 0 12100 ].

(** The state in which that run of [checkNumbers] ends. *)
Definition outOfOrderEnd : option (service * job) :=
  match checkNumbers 10000 threeNumbers userA readyService with
  | inr j0 => run outOfOrder (readyService, j0)
  | inl _ => None
  end.

Definition validNumbers : list jsstring :=
  [js "03211234567"; js "03001234567"; js "+14155550123"].

(** The three callbacks start together; the first passes the gate, the
    other two sleep until the same instant and then query together. *)
Definition burst : list event :=
  [ Start 10000; Start 10000; Start 10000;
    Query 0 10000;
    Wake 1 12000; Wake 2 12000; Query 1 12000; Query 2 12000 ].

Definition burstEnd : option (service * job) :=
  match checkNumbers 10000 validNumbers userA readyService with
  | inr j0 => run burst (readyService, j0)
  | inl _ => None
  end.

(** [userA] has paired an account: the session was initialized at 1000,
    the credentials were saved and the connection opened. *)
Definition pairedWorld : world :=
  connectionOpen userA (js "socketA")
    (saveCreds userA
       (initializeUserSession 1000 true userA (js "socketA") newWorld)).

End Scenario.

(** * Predicates used to state the properties *)

(** A string that does not start with white space. *)
Definition headNotSpace (l : jsstring) : Prop :=
  match l with
  | [] => True
  | c :: _ => isWhiteSpace c = false
  end.

(** What every key of the prefix table looks like: three digits, the first
    a 3. *)
Definition keyShape (k : jsstring) : bool :=
  (length k =? 3) && startsWith k (js "3") && allDigits k.

Section Predicates.

Import WhatsAppService.

Local Open Scope Z_scope.

(** Every entry of the cache holds a result that satisfies [P]. *)
Definition cacheAll (P : CheckResult.t -> Prop)
    (cache : gmap (option jsstring) cacheEntry) : Prop :=
  map_Forall (fun _ e => P (result e)) cache.

(** No result of status [error] is kept in the cache. *)
Definition noErrorCached (cache : gmap (option jsstring) cacheEntry) : Prop :=
  cacheAll (fun r => CheckResult.status_ r <> CheckResult.error) cache.

(** A result of status [invalid] has neither a canonical identifier nor a
    registration flag. *)
Definition invalidIsNull (r : CheckResult.t) : Prop :=
  CheckResult.status_ r = CheckResult.invalid ->
  CheckResult.formattedNumber r = None
  /\ CheckResult.hasWhatsApp r = CheckResult.null.

(** The invariant of a [checkNumbers] call, for a property [good n] of the
    results produced for the number [n]. *)
Record jobInv (good : jsstring -> CheckResult.t -> Prop) (j : job) : Prop := {
  inv_results_length : length (results j) = length (numbers j);
  inv_workers_length :
    length (workers j) = length (batchAt (batchStart j) (numbers j));
  inv_sound : forall i r, results j !! i = Some (Some r) ->
    exists n, numbers j !! i = Some n /\ good n r;
  inv_settled : forall k r n, workers j !! k = Some (Settled r) ->
    numberOf k j = Some n -> good n r;
  inv_done : forall i, (i < batchStart j)%nat ->
    exists r, results j !! i = Some (Some r);
  inv_finished : forall k, workers j !! k = Some Finished ->
    exists r, results j !! (batchStart j + k)%nat = Some (Some r)
}.

(** The part of the invariant that does not depend on the results. *)
Definition shapeInv : job -> Prop := jobInv (fun _ _ => True).

(** Two queries of one session, in the order of the log, are at least 2
    seconds apart. *)
Definition paced (qs : list (jsstring * Z)) : Prop :=
  forall (i k : nat) u t1 t2, (i < k)%nat ->
    qs !! i = Some (u, t1) -> qs !! k = Some (u, t2) -> 2000 <= t2 - t1.

(** The queries of every run of [checkNumbers] are paced. *)
Definition queriesPaced : Prop :=
  forall now ns u s j0 es s' j',
    sessionReady s u = true -> checkNumbers now ns u s = inr j0 ->
    run es (s, j0) = Some (s', j') -> paced (queries j').

(** A lookup of another session leaves the gate as a session finds it. *)
Definition gatePerSession : Prop :=
  forall t now m n u1 u2 s,
    u1 <> u2 -> sessionReady s u1 = true -> sessionReady s u2 = true -> t <= now ->
    (checkNumber_begin now n u1 (checkNumber_begin t m u2 s).1).2
    = (checkNumber_begin now n u1 s).2.

(** The callbacks whose query is in flight, and those that have not
    issued theirs yet. *)
Definition isQuerying (w : worker) : bool :=
  match w with Querying _ => true | _ => false end.

Definition beforeQuery (w : worker) : bool :=
  match w with Pending | Sleeping _ _ | Passed _ => true | _ => false end.

Definition inFlight (j : job) : nat := length (List.filter isQuerying (workers j)).

(** The invariant of the progress reports of a call: there is one per
    completed number, the [i]-th carries the count [i + 1], the total and
    one of the numbers, and the count of completed numbers is that of the
    earlier batches and of the finished callbacks of this one. *)
Definition progressInv (j : job) : Prop :=
  length (progress j) = completed j
  /\ (forall i e, progress j !! i = Some e ->
        e.1.1 = S i /\ e.1.2 = length (numbers j) /\ In e.2 (numbers j))
  /\ completed j
     = (batchStart j + length (List.filter isFinished (workers j)))%nat.

(** The invariant of the queries of a call: every number accounts for at
    most one. *)
Definition queryInv (j : job) : Prop :=
  (length (queries j) + length (List.filter beforeQuery (workers j))
   <= batchStart j + length (workers j))%nat.

(** In every session written by the handlers, [isReady] and
    [isInitializing] are not set together. *)
Definition flagsExclusive (us : userSession) : Prop :=
  isInitializing us = true -> isReady us = false.

(** The invariant of the registries: the flags of every session are
    exclusive; the socket registered for a user has been made, has not been
    ended, and is registered for that user only; every ended socket has
    been made. *)
Record worldInv (w : world) : Prop := {
  winv_flags : forall u us, userSessions (svc w) !! u = Some us -> flagsExclusive us;
  winv_live : forall u sock, clients (svc w) !! u = Some sock ->
    (sockId sock < made w)%nat /\ ~ In (sockId sock) (ended w);
  winv_own : forall u1 u2 s1 s2,
    clients (svc w) !! u1 = Some s1 -> clients (svc w) !! u2 = Some s2 ->
    sockId s1 = sockId s2 -> u1 = u2;
  winv_ended : forall i, In i (ended w) -> (i < made w)%nat
}.

(** The world after a sequence of handler steps. *)
Definition after (acts : list action) (w : world) : world :=
  foldl (fun w a => act a w) w acts.

End Predicates.

(** * Properties of the number normalizer *)

Section CodeUnits.

Lemma isWhiteSpace_not_digit c : isWhiteSpace c = true -> isDigit c = false.
Proof.
  unfold isWhiteSpace, isDigit. intros H.
  destruct (N.leb_spec 48 c), (N.leb_spec c 57); simpl; try reflexivity.
  repeat (apply orb_prop in H; destruct H as [H|H]);
    repeat match goal with
    | H : (_ && _)%bool = true |- _ => apply andb_prop in H; destruct H
    | H : (_ <=? _)%N = true |- _ => apply N.leb_le in H
    | H : (_ =? _)%N = true |- _ => apply N.eqb_eq in H
    end; lia.
Qed.

Lemma removeNonDigits_trimStart s :
  removeNonDigits (trimStart s) = removeNonDigits s.
Proof.
  induction s as [|c s IH]; simpl; [reflexivity|].
  destruct (isWhiteSpace c) eqn:Hw; [|reflexivity].
  rewrite IH. now rewrite (isWhiteSpace_not_digit c Hw).
Qed.

Lemma removeNonDigits_trim s : removeNonDigits (trim s) = removeNonDigits s.
Proof.
  unfold trim, removeNonDigits.
  rewrite filter_rev. fold (removeNonDigits (trimStart (rev (trimStart s)))).
  rewrite removeNonDigits_trimStart. unfold removeNonDigits.
  rewrite filter_rev, rev_involutive.
  apply removeNonDigits_trimStart.
Qed.

Lemma removeNonDigits_strip_plus s :
  removeNonDigits (if startsWith s (js "+") then substringFrom 1 s else s)
  = removeNonDigits s.
Proof.
  destruct s as [|c s]; [reflexivity|].
  cbn [js startsWith]. change (N_of_ascii "+") with 43%N.
  destruct (N.eqb_spec 43 c) as [<-|]; reflexivity.
Qed.

(** [cleanNumber] keeps exactly the digits of its input: the trimming and
    the removal of a leading [+] are subsumed by the removal of non-digits. *)
Lemma cleanNumber_digits s : cleanNumber s = removeNonDigits s.
Proof.
  destruct s as [|c s]; [reflexivity|].
  unfold cleanNumber.
  now rewrite removeNonDigits_strip_plus, removeNonDigits_trim.
Qed.

Lemma cleanNumber_allDigits s : allDigits (cleanNumber s) = true.
Proof. rewrite cleanNumber_digits. apply forallb_filter. Qed.

Lemma cleanNumber_canonical d :
  allDigits d = true -> cleanNumber (js "+" ++ d) = d.
Proof.
  intros H. rewrite cleanNumber_digits. simpl.
  now apply forallb_filter_id.
Qed.

End CodeUnits.

(** Turns boolean tests on lengths found in the hypotheses into
    propositions that [lia] understands. *)
Ltac prop_of_bools :=
  repeat match goal with
  | H : (_ && _)%bool = true |- _ => apply andb_prop in H; destruct H
  | H : (_ || _)%bool = false |- _ => apply orb_false_elim in H; destruct H
  | H : (_ || _)%bool = true |- _ => apply orb_prop in H; destruct H
  | H : (_ && _)%bool = false |- _ => apply andb_false_iff in H; destruct H
  | H : negb _ = true |- _ => apply negb_true_iff in H
  | H : negb _ = false |- _ => apply negb_false_iff in H
  | H : (_ <? _) = true |- _ => apply Nat.ltb_lt in H
  | H : (_ <? _) = false |- _ => apply Nat.ltb_ge in H
  | H : (_ <=? _) = true |- _ => apply Nat.leb_le in H
  | H : (_ <=? _) = false |- _ => apply Nat.leb_gt in H
  | H : (_ =? _) = true |- _ => apply Nat.eqb_eq in H
  | H : (_ =? _) = false |- _ => apply Nat.eqb_neq in H
  | H : bool_decide _ = true |- _ => apply bool_decide_eq_true in H
  | H : bool_decide _ = false |- _ => apply bool_decide_eq_false in H
  end.

(** Case analysis on the next test of the code under scrutiny. *)
Ltac next_test :=
  match goal with
  | |- context [if ?b then _ else _] => destruct b eqn:?
  | |- context [match ?o with Some _ => _ | None => _ end] => destruct o eqn:?
  end; cbn [isValid formattedNumber network pkValid pkNetwork pkError].

(** Case analysis on the atomic tests: prefixes and lengths. *)
Ltac split_atoms :=
  repeat match goal with
  | |- context [startsWith ?d ?p] => destruct (startsWith d p) eqn:?
  | |- context [Nat.ltb ?a ?b] => destruct (Nat.ltb a b) eqn:?
  | |- context [Nat.leb ?a ?b] => destruct (Nat.leb a b) eqn:?
  | |- context [Nat.eqb ?a ?b] => destruct (Nat.eqb a b) eqn:?
  | |- context [bool_decide ?P] => destruct (bool_decide P) eqn:?
  end; cbn [andb orb negb].

Section Normalizer.

Lemma startsWith_plus_digits d : allDigits d = true -> startsWith d (js "+") = false.
Proof.
  destruct d as [|c d]; [reflexivity|].
  cbn [allDigits forallb js startsWith]. change (N_of_ascii "+") with 43%N.
  intros H. apply andb_prop in H as [H _].
  destruct (N.eqb_spec 43 c) as [<-|]; [discriminate H|reflexivity].
Qed.

Lemma allDigits_drop k d : allDigits d = true -> allDigits (drop k d) = true.
Proof.
  unfold allDigits. rewrite !forallb_forall. intros H x Hx.
  apply H. rewrite <- (take_drop k d). apply in_or_app. now right.
Qed.

Lemma matchMobile_length s m : matchMobile s = Some m -> length m = 9.
Proof.
  destruct s as [|c r]; [discriminate|]. unfold matchMobile.
  destruct (_ && _ && _) eqn:E; [|discriminate].
  intros [= <-]. prop_of_bools. cbn [length]. rewrite length_take. lia.
Qed.

Lemma matchPatternHere_length s m : matchPatternHere s = Some m -> length m = 9.
Proof.
  unfold matchPatternHere.
  repeat next_test; intros [= <-] || intros H;
    eauto using matchMobile_length; try discriminate.
Qed.

Lemma matchPattern_length s m : matchPattern s = Some m -> length m = 9.
Proof.
  induction s as [|c s IH]; cbn [matchPattern].
  - destruct (matchPatternHere []) eqn:E; [|discriminate].
    intros [= <-]. eauto using matchPatternHere_length.
  - destruct (matchPatternHere (c :: s)) eqn:E; [|exact IH].
    intros [= <-]. eauto using matchPatternHere_length.
Qed.

(** A number that [validatePakistaniNumber] accepts has thirteen code units. *)
Lemma validatePakistaniNumber_length f :
  pkValid (validatePakistaniNumber f) = true -> length f = 13.
Proof.
  unfold validatePakistaniNumber, substringFrom.
  repeat next_test; try discriminate. intros _.
  prop_of_bools. rewrite length_drop in *. lia.
Qed.

(** What the international rule accepts, on a string of digits. *)
Lemma validateInternationalNumber_valid d :
  isValid (validateInternationalNumber d) = true ->
  exists f, validateInternationalNumber d
            = mkValidation true d (Some f) None (Some (js "International"))
         /\ testPlusDigits f = true /\ 7 <= length d <= 15.
Proof.
  unfold validateInternationalNumber.
  destruct (_ || _) eqn:Hlen; [discriminate|].
  match goal with |- context [testPlusDigits ?x] => set (f := x) end.
  destruct (testPlusDigits f) eqn:Ht; [|discriminate]. cbn.
  intros _. exists f. prop_of_bools. repeat split; auto; lia.
Qed.

(** When the international rule rejects a string of digits. *)
Lemma validateInternationalNumber_invalid d :
  allDigits d = true ->
  isValid (validateInternationalNumber d) = false ->
  length d < 7 \/ 15 < length d
  \/ (startsWith d (js "00") = true /\ length d <= 8)
  \/ (startsWith d (js "00") = false /\ length d = 15).
Proof.
  intros Hd. pose proof (allDigits_drop 1 d Hd) as Hd1.
  pose proof (allDigits_drop 2 d Hd) as Hd2.
  unfold validateInternationalNumber, substringFrom, testPlusDigits.
  rewrite (startsWith_plus_digits d Hd).
  split_atoms; cbn [js app];
    change (N_of_ascii "+") with 43%N; change (N_of_ascii "9") with 57%N;
    change (N_of_ascii "2") with 50%N;
    cbn [N.eqb Pos.eqb andb allDigits forallb];
    change (isDigit 57) with true; change (isDigit 50) with true;
    fold (allDigits d) (allDigits (drop 1 d)) (allDigits (drop 2 d));
    rewrite ?Hd, ?Hd1, ?Hd2; cbn [andb length];
    split_atoms; cbn [isValid]; try discriminate; intros _;
    prop_of_bools; rewrite ?length_drop in *; lia.
Qed.

(** The national fallback of [validateNumber] never accepts: whenever the
    international rule rejects a string of digits, either [formatNumber]
    gives [null] or [validatePakistaniNumber] rejects its result. *)
Lemma fallback_invalid d f :
  allDigits d = true ->
  isValid (validateInternationalNumber d) = false ->
  formatNumber d = Some f ->
  pkValid (validatePakistaniNumber f) = false.
Proof.
  intros Hd Hi Hf.
  destruct (pkValid (validatePakistaniNumber f)) eqn:Hp; [|reflexivity].
  apply validatePakistaniNumber_length in Hp.
  apply validateInternationalNumber_invalid in Hi; [|assumption].
  revert Hf. unfold formatNumber, substringFrom.
  rewrite (startsWith_plus_digits d Hd).
  destruct Hi as [Hi|[Hi|[[-> Hi]|[-> Hi]]]];
    split_atoms; try discriminate;
    repeat next_test; try discriminate; intros [= <-];
    prop_of_bools;
    repeat match goal with
    | H : matchPattern _ = Some _ |- _ => apply matchPattern_length in H
    end;
    cbn [js app length] in *; rewrite ?length_app, ?length_drop in *;
    cbn [length] in *; lia.
Qed.

Lemma startsWith_03_0 d :
  startsWith d (js "03") = true -> startsWith d (js "0") = true.
Proof.
  destruct d as [|c d]; cbn [js startsWith]; [discriminate|].
  intros H. apply andb_prop in H as [-> _]. reflexivity.
Qed.

(** An accepted number is always accepted by the international rule. *)
Lemma validateNumber_valid s :
  isValid (validateNumber s) = true ->
  validateNumber s = validateInternationalNumber (cleanNumber s).
Proof.
  unfold validateNumber. pose proof (cleanNumber_allDigits s) as Hd.
  destruct (cleanNumber s) as [|c d] eqn:Hc; [discriminate|].
  destruct (isValid (validateInternationalNumber (c :: d))) eqn:Hi; [reflexivity|].
  destruct (formatNumber (c :: d)) as [f|] eqn:Hf; [|discriminate].
  cbn [isValid]. now rewrite (fallback_invalid _ _ Hd Hi Hf).
Qed.

(** Every accepted number carries the tag "International". *)
Lemma validateNumber_valid_network s :
  isValid (validateNumber s) = true ->
  network (validateNumber s) = Some (js "International").
Proof.
  intros H. pose proof H as H'. rewrite (validateNumber_valid s H) in H' |- *.
  apply validateInternationalNumber_valid in H' as (f & -> & _). reflexivity.
Qed.

Lemma testPlusDigits_shape f :
  testPlusDigits f = true ->
  exists d, f = js "+" ++ d /\ allDigits d = true /\ 7 <= length d <= 14.
Proof.
  destruct f as [|c r]; [discriminate|]. cbn [testPlusDigits]. intros H.
  prop_of_bools. apply N.eqb_eq in H as ->. exists r. repeat split; auto.
Qed.

(** The canonical identifier of an accepted number: [+] and 7 to 14 digits. *)
Lemma validateNumber_canonical_shape s c :
  isValid (validateNumber s) = true ->
  formattedNumber (validateNumber s) = Some c ->
  exists d, c = js "+" ++ d /\ allDigits d = true /\ 7 <= length d <= 14.
Proof.
  intros H. pose proof H as H'. rewrite (validateNumber_valid s H) in H' |- *.
  apply validateInternationalNumber_valid in H' as (f & -> & Ht & _).
  cbn [formattedNumber]. intros [= <-]. now apply testPlusDigits_shape.
Qed.

(** Normalizing a canonical identifier again: it is kept when its digits
    neither start with 00 nor form an 11-digit 03 string. *)
Lemma revalidate_same d :
  allDigits d = true -> 7 <= length d <= 14 ->
  startsWith d (js "00") = false ->
  ~ (length d = 11 /\ startsWith d (js "03") = true) ->
  validateNumber (js "+" ++ d)
  = mkValidation true d (Some (js "+" ++ d)) None (Some (js "International")).
Proof.
  intros Hd Hlen H00 H03. unfold validateNumber.
  rewrite (cleanNumber_canonical d Hd).
  destruct d as [|c d]; [cbn in Hlen; lia|]. set (e := c :: d) in *.
  assert (Hv : validateInternationalNumber e
    = mkValidation true e (Some (js "+" ++ e)) None (Some (js "International"))).
  { unfold validateInternationalNumber, substringFrom.
    rewrite (startsWith_plus_digits e Hd), H00.
    assert (Ht : testPlusDigits (js "+" ++ e) = true).
    { cbn [js app testPlusDigits]. rewrite Hd.
      destruct (Nat.leb_spec 7 (length e)), (Nat.leb_spec (length e) 14);
        try lia. reflexivity. }
    split_atoms; prop_of_bools; rewrite ?Ht;
      first [reflexivity | exfalso; lia | exfalso; apply H03; split; auto]. }
  rewrite Hv. reflexivity.
Qed.

(** ... and it is not kept otherwise. *)
Lemma revalidate_differs d :
  allDigits d = true -> 7 <= length d <= 14 ->
  startsWith d (js "00") = true
  \/ (length d = 11 /\ startsWith d (js "03") = true) ->
  ~ (isValid (validateNumber (js "+" ++ d)) = true
     /\ formattedNumber (validateNumber (js "+" ++ d)) = Some (js "+" ++ d)).
Proof.
  intros Hd Hlen Hcase [Hv Hf].
  pose proof (validateNumber_valid _ Hv) as E.
  rewrite (cleanNumber_canonical d Hd) in E. rewrite E in Hv, Hf. clear E.
  revert Hv Hf.
  unfold validateInternationalNumber, substringFrom.
  rewrite (startsWith_plus_digits d Hd).
  destruct Hcase as [H00|[H11 H03]].
  - rewrite H00. split_atoms; repeat next_test; try discriminate.
    intros _ [= E]. apply (f_equal length) in E.
    rewrite length_drop in E. lia.
  - rewrite H03, (startsWith_03_0 d H03), H11.
    split_atoms; repeat next_test; try discriminate;
      intros _ [= E]; apply (f_equal length) in E;
      cbn [length] in E; rewrite length_drop in E; lia.
Qed.

(** A rejected number has no canonical identifier. *)
Lemma validateNumber_invalid_formatted s :
  isValid (validateNumber s) = false -> formattedNumber (validateNumber s) = None.
Proof.
  unfold validateNumber. destruct (cleanNumber s) as [|c d]; [reflexivity|].
  destruct (isValid (validateInternationalNumber (c :: d))) eqn:E.
  - intros H. rewrite H in E. discriminate E.
  - destruct (formatNumber (c :: d)); [|reflexivity].
    cbn [isValid formattedNumber]. now intros ->.
Qed.

End Normalizer.

(** ** The normalizer against the specification *)

(** C1, as the specification states it, fails: for the input "03211234567"
    the canonical identifier is "+923211234567", but the carrier tag is not
    the entry of the prefix table for "321"; it is the generic
    "International" tag. *)
Lemma validateNumber_local_carrier_counterexample :
  ~ (formattedNumber (validateNumber (js "03211234567")) = Some (js "+923211234567")
     /\ network (validateNumber (js "03211234567"))
        = tableLookup pakistaniNetworks (js "321")
     /\ network (validateNumber (js "03211234567")) <> Some (js "International")).
Proof. intros (_ & _ & H). apply H. vm_compute. reflexivity. Qed.

(** C1 (amended): normalizing "03211234567" yields the canonical identifier
    "+923211234567" through the international rule, which [validateNumber]
    tries first and which rewrites the 11-digit 03 form itself; the result
    carries the tag "International", while the prefix table maps "321" to
    "Ufone". *)
Theorem validateNumber_local_example :
  validateNumber (js "03211234567")
  = mkValidation true (js "03211234567") (Some (js "+923211234567")) None
      (Some (js "International"))
  /\ validateNumber (js "03211234567")
     = validateInternationalNumber (js "03211234567")
  /\ tableLookup pakistaniNetworks (js "321") = Some (js "Ufone").
Proof. vm_compute. repeat split. Qed.

(** C9: [validateNumber] rejects the empty input and every input whose
    digit count after cleaning is below 7 or above 15, whatever digit
    pattern the input embeds. *)
Theorem validateNumber_rejects_out_of_range (number : jsstring) :
  number = [] \/ length (cleanNumber number) < 7 \/ 15 < length (cleanNumber number) ->
  isValid (validateNumber number) = false
  /\ formattedNumber (validateNumber number) = None.
Proof.
  intros H.
  assert (Hlen : length (cleanNumber number) < 7 \/ 15 < length (cleanNumber number)).
  { destruct H as [->|H]; [left; cbn; lia|exact H]. }
  clear H.
  destruct (isValid (validateNumber number)) eqn:Hv.
  - pose proof Hv as Hv'. rewrite (validateNumber_valid _ Hv) in Hv'.
    apply validateInternationalNumber_valid in Hv' as (_ & _ & _ & ?). lia.
  - split; [reflexivity|]. now apply validateNumber_invalid_formatted.
Qed.

Lemma validateNumber_rejects_out_of_range_witness :
  isValid (validateNumber (js "1111923001234567")) = false
  /\ formattedNumber (validateNumber (js "1111923001234567")) = None.
Proof.
  apply (validateNumber_rejects_out_of_range (js "1111923001234567")).
  right. right. vm_compute. lia.
Defined.

(** The digit count of C9 is the number of digits of the raw input. *)
Lemma cleanNumber_length number :
  length (cleanNumber number) = length (removeNonDigits number).
Proof. now rewrite cleanNumber_digits. Qed.

(** C10, as stated, fails: "0003211234567" is accepted with the canonical
    identifier "+03211234567", and normalizing that identifier gives
    "+923211234567". *)
Lemma validateNumber_idempotent_counterexample :
  ~ (forall s c : jsstring,
       isValid (validateNumber s) = true ->
       formattedNumber (validateNumber s) = Some c ->
       isValid (validateNumber c) = true
       /\ formattedNumber (validateNumber c) = Some c).
Proof.
  intros H.
  destruct (H (js "0003211234567") (js "+03211234567")) as [_ E];
    [vm_compute; reflexivity ..|].
  vm_compute in E. discriminate E.
Qed.

(** C10 (amended): when [validateNumber] accepts an input with canonical
    identifier [c], normalizing [c] again accepts it with the same
    canonical identifier exactly when [c] does not start with "+00" and is
    not a 12-character string starting with "+03". *)
Theorem validateNumber_idempotent_iff (s c : jsstring) :
  isValid (validateNumber s) = true ->
  formattedNumber (validateNumber s) = Some c ->
  (isValid (validateNumber c) = true
   /\ formattedNumber (validateNumber c) = Some c)
  <-> (startsWith c (js "+00") = false
       /\ ~ (length c = 12 /\ startsWith c (js "+03") = true)).
Proof.
  intros Hv Hf.
  destruct (validateNumber_canonical_shape s c Hv Hf) as (d & -> & Hd & Hlen).
  change (startsWith (js "+" ++ d) (js "+00")) with (startsWith d (js "00")).
  change (startsWith (js "+" ++ d) (js "+03")) with (startsWith d (js "03")).
  change (length (js "+" ++ d)) with (S (length d)).
  split.
  - intros Hsame.
    destruct (startsWith d (js "00")) eqn:H00.
    + exfalso. apply (revalidate_differs d Hd Hlen); auto.
    + split; [reflexivity|]. intros [H12 H03].
      apply (revalidate_differs d Hd Hlen); [right; split; [lia|exact H03]|exact Hsame].
  - intros [H00 H03].
    rewrite (revalidate_same d Hd Hlen H00).
    + split; reflexivity.
    + intros [H11 H]. apply H03. split; [lia|exact H].
Qed.

Lemma validateNumber_idempotent_iff_witness :
  isValid (validateNumber (js "+923211234567")) = true
  /\ formattedNumber (validateNumber (js "+923211234567"))
     = Some (js "+923211234567").
Proof.
  apply (validateNumber_idempotent_iff (js "03211234567") (js "+923211234567"));
    [vm_compute; reflexivity | vm_compute; reflexivity |].
  split; [vm_compute; reflexivity|].
  intros [_ H]. vm_compute in H. discriminate H.
Defined.

(** * Properties of the result cache *)

Import WhatsAppService.

Section Cache.

Local Open Scope Z_scope.

Implicit Types cache : gmap (option jsstring) cacheEntry.

Lemma cacheAll_empty P : cacheAll P ∅.
Proof. apply map_Forall_empty. Qed.

Lemma cacheAll_cleanupCache P now cache :
  cacheAll P cache -> cacheAll P (cleanupCache now cache).
Proof.
  unfold cacheAll, cleanupCache. rewrite !map_Forall_lookup.
  intros H k e He. apply map_lookup_filter_Some in He as [He _]. eauto.
Qed.

Lemma cacheAll_getCachedResult P now key cache :
  cacheAll P cache ->
  cacheAll P (getCachedResult now key cache).2
  /\ forall r, (getCachedResult now key cache).1 = Some r -> P r.
Proof.
  intros H. unfold getCachedResult.
  destruct (cache !! key) as [e|] eqn:He; [|split; [exact H|discriminate]].
  destruct (now - timestamp e <? cacheExpiry); cbn [fst snd].
  - split; [exact H|]. intros r [= <-].
    exact (proj1 (map_Forall_lookup _ _) H key e He).
  - split; [now apply map_Forall_delete|discriminate].
Qed.

Lemma cacheAll_setCachedResult P now key r cache :
  (CheckResult.status_ r <> CheckResult.error -> P r) ->
  cacheAll P cache -> cacheAll P (setCachedResult now key r cache).
Proof.
  intros Hr H. unfold setCachedResult.
  assert (Hins : cacheAll P (<[key := mkEntry r now]> cache) ->
    cacheAll P (if (1000 <? size (<[key := mkEntry r now]> cache))%nat
                then cleanupCache now (<[key := mkEntry r now]> cache)
                else <[key := mkEntry r now]> cache)).
  { intros H'. destruct (_ <? _)%nat; [now apply cacheAll_cleanupCache|exact H']. }
  destruct (CheckResult.status_ r) eqn:Hs; [| |exact H];
    apply Hins, map_Forall_insert_2; auto; apply Hr; congruence.
Qed.

End Cache.

(** C7: a [getCachedResult] on an entry older than the TTL of one hour
    deletes the entry and returns a miss; whenever [getCachedResult]
    returns a hit, the entry is younger than the TTL and is left in place. *)
Theorem getCachedResult_expired (now : Z) (key : option jsstring)
    (cache : gmap (option jsstring) cacheEntry) (e : cacheEntry) :
  cache !! key = Some e ->
  (cacheExpiry = 3600000
   /\ (cacheExpiry < now - timestamp e ->
       getCachedResult now key cache = (None, delete key cache)
       /\ delete key cache !! key = None)
   /\ (forall r, (getCachedResult now key cache).1 = Some r ->
       r = result e /\ now - timestamp e < cacheExpiry
       /\ (getCachedResult now key cache).2 = cache))%Z.
Proof.
  intros He. unfold getCachedResult. rewrite He. split; [reflexivity|].
  destruct (Z.ltb_spec (now - timestamp e) cacheExpiry) as [Hlt|Hge]; split.
  - intros Hold. lia.
  - intros r [= <-]. auto.
  - intros _. split; [reflexivity|apply lookup_delete_eq].
  - intros r. discriminate.
Qed.

Lemma getCachedResult_expired_witness :
  getCachedResult 3600001 (Some (js "+923211234567"))
    {[ Some (js "+923211234567") :=
         mkEntry (validResult (js "03211234567") (validateNumber (js "03211234567"))
                    (Some true)) 0 ]}
  = (None, delete (Some (js "+923211234567"))
             {[ Some (js "+923211234567") :=
                  mkEntry (validResult (js "03211234567")
                             (validateNumber (js "03211234567")) (Some true)) 0 ]}).
Proof.
  destruct (getCachedResult_expired 3600001 (Some (js "+923211234567"))
    {[ Some (js "+923211234567") :=
         mkEntry (validResult (js "03211234567") (validateNumber (js "03211234567"))
                    (Some true)) 0 ]}
    (mkEntry (validResult (js "03211234567") (validateNumber (js "03211234567"))
                (Some true)) 0)) as (_ & H & _).
  - reflexivity.
  - apply H. reflexivity.
Defined.

(** * Properties of the batch engine *)

Section Engine.

(** [P] is a property of the results kept in the cache and [good n] one
    of the results produced for the number [n], such that every result
    built by the code is good. *)
Variable P : CheckResult.t -> Prop.
Variable good : jsstring -> CheckResult.t -> Prop.
Hypothesis P_valid : forall n v f, P (validResult n v f).
Hypothesis good_invalid : forall n v, good n (invalidResult n v).
Hypothesis good_cached : forall n c, P c -> good n (cachedResultFor n c).
Hypothesis good_valid : forall n v f, good n (validResult n v f).
Hypothesis good_failed : forall n v m, good n (failedResult n v m).
Hypothesis good_error : forall n m, good n (errorResult n m).

Lemma checkNumber_begin_cache now n u s :
  cacheAll P (numberCache s) ->
  cacheAll P (numberCache (checkNumber_begin now n u s).1).
Proof.
  intros H. unfold checkNumber_begin.
  destruct (negb (sessionReady s u)); [exact H|].
  destruct (negb (isValid (validateNumber n))); [exact H|].
  destruct (cacheAll_getCachedResult P now
              (NumberValidator.formattedNumber (validateNumber n)) _ H) as [Hc _].
  destruct (getCachedResult _ _ _) as [[c|] cache]; cbn [fst snd] in *; [exact Hc|].
  unfold waitForRateLimit_arrive.
  destruct (_ <? _)%Z; exact Hc.
Qed.

Lemma checkNumber_begin_good now n u s r :
  cacheAll P (numberCache s) ->
  (checkNumber_begin now n u s).2 = Settled r -> good n r.
Proof.
  intros H. unfold checkNumber_begin.
  destruct (negb (sessionReady s u)); [discriminate|].
  destruct (negb (isValid (validateNumber n))); [intros [= <-]; apply good_invalid|].
  destruct (cacheAll_getCachedResult P now
              (NumberValidator.formattedNumber (validateNumber n)) _ H) as [_ Hr].
  destruct (getCachedResult _ _ _) as [[c|] cache]; cbn [fst snd] in *.
  - intros [= <-]. apply good_cached, Hr. reflexivity.
  - unfold waitForRateLimit_arrive. destruct (_ <? _)%Z; discriminate.
Qed.

Lemma checkNumber_reply_cache now n v r s :
  cacheAll P (numberCache s) ->
  cacheAll P (numberCache (checkNumber_reply now n v r s).1).
Proof.
  intros H. destruct r as [f|m]; [|exact H].
  cbn [checkNumber_reply fst numberCache setCache].
  apply cacheAll_setCachedResult; auto.
Qed.

Lemma checkNumber_reply_good now n v r s :
  exists r', (checkNumber_reply now n v r s).2 = Settled r' /\ good n r'.
Proof. destruct r as [f|m]; cbn; eauto. Qed.


Lemma length_batchAt i (ns : list jsstring) :
  length (batchAt i ns) = Nat.min maxConcurrent (length ns - i).
Proof. unfold batchAt. now rewrite length_take, length_drop. Qed.

Lemma numberOf_is_Some j k :
  jobInv good j -> k < length (workers j) -> is_Some (numberOf k j).
Proof.
  intros Hj Hk. rewrite (inv_workers_length good j Hj), length_batchAt in Hk.
  apply lookup_lt_is_Some. lia.
Qed.

Lemma checkNumbers_inv now ns u s j :
  checkNumbers now ns u s = inr j -> jobInv good j.
Proof.
  unfold checkNumbers.
  repeat match goal with |- context [if ?b then _ else _] => destruct b end;
    try discriminate.
  intros [= <-]. split; cbn.
  - apply length_replicate.
  - apply length_replicate.
  - intros i r H. apply lookup_replicate in H as [[=] _].
  - intros k r n H. apply lookup_replicate in H as [[=] _].
  - intros i H. lia.
  - intros k H. apply lookup_replicate in H as [[=] _].
Qed.

(** Replacing the state of callback [k] by one that is not [Finished],
    and is good when settled, keeps the invariant. *)
Lemma setWorker_inv k w now j :
  jobInv good j ->
  w <> Finished ->
  (forall r n, w = Settled r -> numberOf k j = Some n -> good n r) ->
  jobInv good (setWorker k w now j).
Proof.
  intros Hj Hw Hg. split; cbn.
  - apply (inv_results_length good j Hj).
  - rewrite length_insert. apply (inv_workers_length good j Hj).
  - apply (inv_sound good j Hj).
  - intros k' r n H Hn. destruct (decide (k = k')) as [<-|Hne].
    + destruct (decide (k < length (workers j))) as [Hlt|Hge].
      * rewrite list_lookup_insert_eq in H by exact Hlt.
        injection H as ->. eauto.
      * rewrite list_insert_ge in H by lia.
        apply (inv_settled good j Hj k r n H Hn).
    + rewrite list_lookup_insert_ne in H by exact Hne.
      apply (inv_settled good j Hj k' r n H Hn).
  - apply (inv_done good j Hj).
  - intros k' H. destruct (decide (k = k')) as [<-|Hne].
    + destruct (decide (k < length (workers j))) as [Hlt|Hge].
      * rewrite list_lookup_insert_eq in H by exact Hlt. congruence.
      * rewrite list_insert_ge in H by lia. apply (inv_finished good j Hj k H).
    + rewrite list_lookup_insert_ne in H by exact Hne.
      apply (inv_finished good j Hj k' H).
Qed.

Lemma logQuery_inv now j : jobInv good j -> jobInv good (logQuery now j).
Proof. intros [? ? ? ? ? ?]. split; assumption. Qed.

Lemma writeResult_inv k n r now j :
  jobInv good j -> k < length (workers j) ->
  numberOf k j = Some n -> good n r ->
  jobInv good (writeResult k n r now j).
Proof.
  intros Hj Hk Hn Hg.
  assert (Hi : batchStart j + k < length (results j)).
  { rewrite (inv_results_length good j Hj). now apply lookup_lt_Some in Hn. }
  split; cbn.
  - rewrite length_insert. apply (inv_results_length good j Hj).
  - rewrite length_insert. apply (inv_workers_length good j Hj).
  - intros i r' H. destruct (decide (batchStart j + k = i)) as [<-|Hne].
    + rewrite list_lookup_insert_eq in H by exact Hi. injection H as <-. eauto.
    + rewrite list_lookup_insert_ne in H by exact Hne. apply (inv_sound good j Hj i r' H).
  - intros k' r' n' H Hn'. destruct (decide (k = k')) as [<-|Hne].
    + rewrite list_lookup_insert_eq in H by exact Hk. discriminate H.
    + rewrite list_lookup_insert_ne in H by exact Hne.
      apply (inv_settled good j Hj k' r' n' H Hn').
  - intros i Hlt. destruct (decide (batchStart j + k = i)) as [<-|Hne]; [lia|].
    rewrite list_lookup_insert_ne by exact Hne. apply (inv_done good j Hj i Hlt).
  - intros k' H. destruct (decide (k = k')) as [<-|Hne].
    + rewrite list_lookup_insert_eq by exact Hi. eauto.
    + rewrite list_lookup_insert_ne in H by exact Hne.
      rewrite list_lookup_insert_ne by lia. apply (inv_finished good j Hj k' H).
Qed.

Lemma forallb_isFinished_lookup ws k :
  forallb isFinished ws = true -> k < length ws -> ws !! k = Some Finished.
Proof.
  intros H Hk. destruct (lookup_lt_is_Some_2 ws k Hk) as [w Hw].
  rewrite forallb_forall in H.
  assert (Hin : In w ws) by (apply list_elem_of_In, list_elem_of_lookup; eauto).
  specialize (H w Hin). destruct w; try discriminate H. exact Hw.
Qed.

Lemma nextBatch_inv now j :
  jobInv good j -> forallb isFinished (workers j) = true ->
  batchStart j + maxConcurrent < length (numbers j) ->
  jobInv good (nextBatch now j).
Proof.
  intros Hj Hall Hmore.
  assert (Hlen : length (workers j) = maxConcurrent).
  { rewrite (inv_workers_length good j Hj), length_batchAt. lia. }
  split; cbn.
  - apply (inv_results_length good j Hj).
  - apply length_replicate.
  - apply (inv_sound good j Hj).
  - intros k r n H. apply lookup_replicate in H as [[=] _].
  - intros i Hi. destruct (decide (i < batchStart j)) as [Hlt|Hge].
    + apply (inv_done good j Hj i Hlt).
    + replace i with (batchStart j + (i - batchStart j)) by lia.
      apply (inv_finished good j Hj), forallb_isFinished_lookup; [exact Hall|lia].
  - intros k H. apply lookup_replicate in H as [[=] _].
Qed.

Lemma checkNumber_begin_not_Finished now n u s :
  (checkNumber_begin now n u s).2 <> Finished.
Proof.
  unfold checkNumber_begin, waitForRateLimit_arrive.
  repeat match goal with
  | |- context [if ?b then _ else _] => destruct b
  | |- context [getCachedResult ?a ?b ?c] => destruct (getCachedResult a b c) as [[?|] ?]
  end; discriminate.
Qed.

(** Every step keeps the invariant of the cache and that of the call. *)
Lemma step_inv e s j s' j' :
  cacheAll P (numberCache s) -> jobInv good j ->
  step e (s, j) = Some (s', j') ->
  cacheAll P (numberCache s') /\ jobInv good j'.
Proof.
  intros Hc Hj. unfold step.
  destruct e as [now|k now|k now|k now r|k now|now|cl us| |now n u|now|now n r].
  - destruct (now <? clock j)%Z; [discriminate|].
    destruct (firstPending (workers j)) as [k|]; [|discriminate].
    destruct (numberOf k j) as [n|] eqn:Hn; [|discriminate].
    pose proof (checkNumber_begin_cache now n (userId j) s Hc) as Hc'.
    pose proof (checkNumber_begin_good now n (userId j) s) as Hg.
    pose proof (checkNumber_begin_not_Finished now n (userId j) s) as Hf.
    destruct (checkNumber_begin now n (userId j) s) as [s1 w]; cbn [fst snd] in *.
    intros [= <- <-]. split; [exact Hc'|].
    apply setWorker_inv; auto. intros r n' -> Hn'.
    assert (n' = n) as -> by congruence. now apply Hg.
  - destruct (_ || _); [discriminate|].
    destruct (workers j !! k) as [[]|]; try discriminate.
    destruct (now <? wake)%Z; [discriminate|]. intros [= <- <-].
    split; [exact Hc|]. apply setWorker_inv; auto; discriminate.
  - destruct (_ || _); [discriminate|].
    destruct (workers j !! k) as [[]|]; try discriminate. intros [= <- <-].
    split; [exact Hc|]. apply logQuery_inv, setWorker_inv; auto; discriminate.
  - destruct (_ || _); [discriminate|].
    destruct (workers j !! k) as [[]|]; try discriminate.
    destruct (numberOf k j) as [n|] eqn:Hn; [|discriminate].
    pose proof (checkNumber_reply_cache now n v r s Hc) as Hc'.
    destruct (checkNumber_reply_good now n v r s) as (r' & Hr' & Hg).
    destruct (checkNumber_reply now n v r s) as [s1 w]; cbn [fst snd] in *.
    intros [= <- <-]. split; [exact Hc'|]. subst w.
    apply setWorker_inv; auto; try discriminate.
    intros r0 n' [= <-] Hn'. congruence.
  - destruct (_ || _); [discriminate|].
    destruct (workers j !! k) as [[]|] eqn:Hw; try discriminate;
      destruct (numberOf k j) as [n|] eqn:Hn; try discriminate;
      intros [= <- <-]; (split; [exact Hc|]);
      apply writeResult_inv; auto;
      try (apply lookup_lt_Some in Hw; exact Hw).
    apply (inv_settled good j Hj k r n Hw Hn).
  - destruct (forallb isFinished (workers j)) eqn:Hall; [|discriminate].
    destruct (_ <? _) eqn:Hmore; [|discriminate].
    destruct (_ <=? _)%Z; [|discriminate]. intros [= <- <-].
    split; [exact Hc|]. apply nextBatch_inv; auto. now apply Nat.ltb_lt.
  - destruct (existsb _ _); [discriminate|]. intros [= <- <-]. auto.
  - destruct (existsb _ _); [discriminate|]. intros [= <- <-].
    split; [apply cacheAll_empty|exact Hj].
  - destruct (existsb _ _); [discriminate|]. intros [= <- <-].
    split; [now apply checkNumber_begin_cache|exact Hj].
  - destruct (existsb _ _); [discriminate|]. intros [= <- <-]. auto.
  - destruct (existsb _ _); [discriminate|]. intros [= <- <-].
    split; [now apply checkNumber_reply_cache|exact Hj].
Qed.

Lemma run_inv es s j s' j' :
  cacheAll P (numberCache s) -> jobInv good j ->
  run es (s, j) = Some (s', j') ->
  cacheAll P (numberCache s') /\ jobInv good j'.
Proof.
  revert s j. induction es as [|e es IH]; intros s j Hc Hj; cbn [run].
  - intros [= <- <-]. auto.
  - destruct (step e (s, j)) as [[s1 j1]|] eqn:He; [|discriminate].
    destruct (step_inv e s j s1 j1 Hc Hj He). now apply IH.
Qed.

End Engine.

Section Termination.

Lemma step_numbers e s j s' j' :
  step e (s, j) = Some (s', j') ->
  numbers j' = numbers j /\ userId j' = userId j.
Proof.
  unfold step. destruct e;
    repeat match goal with
    | |- context [if ?b then _ else _] => destruct b
    | |- context [match ?o with Some _ => _ | None => _ end] => destruct o
    | |- context [match ?w with Pending => _ | _ => _ end] => destruct w
    | |- context [let '(_, _) := ?p in _] => destruct p
    end; try discriminate; intros [= <- <-]; split; reflexivity.
Qed.

Lemma run_numbers es s j s' j' :
  run es (s, j) = Some (s', j') ->
  numbers j' = numbers j /\ userId j' = userId j.
Proof.
  revert s j. induction es as [|e es IH]; intros s j; cbn [run].
  - intros [= <- <-]. auto.
  - destruct (step e (s, j)) as [[s1 j1]|] eqn:He; [|discriminate].
    intros H. apply IH in H as [-> ->]. now apply step_numbers in He.
Qed.

Lemma run_app es1 es2 c c1 :
  run es1 c = Some c1 -> run (es1 ++ es2) c = run es2 c1.
Proof.
  revert c. induction es1 as [|e es1 IH]; intros c; cbn [run app].
  - now intros [= ->].
  - destruct (step e c); [apply IH|discriminate].
Qed.

Lemma firstPending_Some ws k :
  firstPending ws = Some k -> ws !! k = Some Pending.
Proof.
  revert k. induction ws as [|w ws IH]; intros k; cbn [firstPending]; [discriminate|].
  destruct w; cbn [isPending];
    try (destruct (firstPending ws); [|discriminate]; intros [= <-];
         cbn; now apply IH).
  now intros [= <-].
Qed.

Lemma existsb_isPending_first ws :
  existsb isPending ws = true -> exists k, firstPending ws = Some k.
Proof.
  induction ws as [|w ws IH]; cbn [existsb firstPending]; [discriminate|].
  destruct (isPending w); cbn [orb]; [eauto|].
  intros H. destruct (IH H) as [k ->]. cbn. eauto.
Qed.

Lemma not_all_finished ws :
  forallb isFinished ws = false ->
  exists k w, ws !! k = Some w /\ isFinished w = false.
Proof.
  induction ws as [|w ws IH]; cbn [forallb]; [discriminate|].
  destruct (isFinished w) eqn:Hw; cbn [andb].
  - intros H. destruct (IH H) as (k & w' & ? & ?). exists (S k), w'. auto.
  - intros _. exists 0, w. auto.
Qed.

Lemma existsb_isPending_lookup ws k :
  existsb isPending ws = false -> ws !! k <> Some Pending.
Proof.
  intros H Hk. apply not_true_iff_false in H. apply H.
  apply existsb_exists. exists Pending. split; [|reflexivity].
  apply list_elem_of_In, list_elem_of_lookup. eauto.
Qed.

Lemma weight_cons w ws :
  list_sum (map weight (w :: ws)) = weight w + list_sum (map weight ws).
Proof. reflexivity. Qed.

Lemma weight_insert ws k w w' :
  ws !! k = Some w -> weight w' < weight w ->
  list_sum (map weight (<[k := w']> ws)) < list_sum (map weight ws).
Proof.
  revert k. induction ws as [|a ws IH]; intros [|k]; try discriminate.
  - intros [= ->] Hw. change (<[0 := w']> (w :: ws)) with (w' :: ws).
    rewrite !weight_cons. lia.
  - intros H Hw. specialize (IH k H Hw).
    change (<[S k := w']> (a :: ws)) with (a :: <[k := w']> ws).
    rewrite !weight_cons. lia.
Qed.

Lemma weight_all_finished ws :
  forallb isFinished ws = true -> list_sum (map weight ws) = 0.
Proof.
  induction ws as [|w ws IH]; [reflexivity|]. cbn [forallb].
  intros H. apply andb_prop in H as [Hw H]. rewrite weight_cons, (IH H).
  destruct w; try discriminate Hw. reflexivity.
Qed.

Lemma weight_replicate_Pending m :
  list_sum (map weight (replicate m Pending)) = 5 * m.
Proof.
  induction m as [|m IH]; [reflexivity|].
  change (replicate (S m) Pending) with (Pending :: replicate m Pending).
  rewrite weight_cons, IH. cbn [weight]. lia.
Qed.

Lemma checkNumber_begin_weight now n u s :
  weight (checkNumber_begin now n u s).2 < 5.
Proof.
  unfold checkNumber_begin, waitForRateLimit_arrive.
  repeat match goal with
  | |- context [if ?b then _ else _] => destruct b
  | |- context [getCachedResult ?a ?b ?c] => destruct (getCachedResult a b c) as [[?|] ?]
  end; cbn; lia.
Qed.

Lemma checkNumber_reply_weight now n v r s :
  weight (checkNumber_reply now n v r s).2 = 1.
Proof. destruct r; reflexivity. Qed.


Lemma step_shapeInv e s j s' j' :
  shapeInv j -> step e (s, j) = Some (s', j') -> shapeInv j'.
Proof.
  intros Hj He.
  eapply proj2, (step_inv (fun _ => True) (fun _ _ => True));
    [..|exact Hj|exact He]; auto.
  apply map_Forall_lookup. auto.
Qed.

Lemma remaining_setWorker k w w' now j :
  workers j !! k = Some w -> weight w' < weight w ->
  remaining (setWorker k w' now j) < remaining j.
Proof.
  intros Hk Hw. unfold remaining. cbn [setWorker workers numbers batchStart].
  rewrite length_insert. pose proof (weight_insert _ _ _ _ Hk Hw). lia.
Qed.

(** Every step of the call itself brings it closer to its return. *)
Lemma own_step_decreases e s j s' j' :
  shapeInv j -> ownStep e = true -> step e (s, j) = Some (s', j') ->
  remaining j' < remaining j.
Proof.
  intros Hj Ho. unfold step.
  destruct e as [now|k now|k now|k now r|k now|now|cl us| |now n u|now|now n r];
    try discriminate Ho.
  - destruct (now <? clock j)%Z; [discriminate|].
    destruct (firstPending (workers j)) as [k|] eqn:Hk; [|discriminate].
    destruct (numberOf k j) as [n|]; [|discriminate].
    pose proof (checkNumber_begin_weight now n (userId j) s) as Hw.
    destruct (checkNumber_begin now n (userId j) s) as [s1 w]; cbn [snd] in Hw.
    intros [= <- <-]. apply firstPending_Some in Hk.
    now apply (remaining_setWorker k Pending).
  - destruct (_ || _); [discriminate|].
    destruct (workers j !! k) as [[]|] eqn:Hk; try discriminate.
    destruct (now <? wake)%Z; [discriminate|]. intros [= <- <-].
    apply (remaining_setWorker k _ _ _ _ Hk). cbn. lia.
  - destruct (_ || _); [discriminate|].
    destruct (workers j !! k) as [[]|] eqn:Hk; try discriminate. intros [= <- <-].
    apply (remaining_setWorker k _ (Querying v) now j Hk). cbn. lia.
  - destruct (_ || _); [discriminate|].
    destruct (workers j !! k) as [[]|] eqn:Hk; try discriminate.
    destruct (numberOf k j) as [n|]; [|discriminate].
    pose proof (checkNumber_reply_weight now n v r s) as Hw.
    destruct (checkNumber_reply now n v r s) as [s1 w]; cbn [snd] in Hw.
    intros [= <- <-]. apply (remaining_setWorker k _ _ _ _ Hk). cbn. lia.
  - destruct (_ || _); [discriminate|].
    destruct (workers j !! k) as [[]|] eqn:Hk; try discriminate;
      destruct (numberOf k j) as [n|]; try discriminate;
      intros [= <- <-]; unfold remaining;
      cbn [writeResult workers numbers batchStart];
      rewrite length_insert;
      match goal with
      | H : workers j !! k = Some ?w |- _ =>
        assert (Hlt : weight Finished < weight w) by (cbn; lia);
        pose proof (weight_insert _ _ _ _ H Hlt)
      end; lia.
  - destruct (forallb isFinished (workers j)) eqn:Hall; [|discriminate].
    destruct (_ <? _) eqn:Hmore; [|discriminate].
    destruct (_ <=? _)%Z; [|discriminate]. intros [= <- <-].
    apply Nat.ltb_lt in Hmore. unfold remaining.
    cbn [nextBatch workers numbers batchStart].
    rewrite weight_replicate_Pending, length_replicate, length_batchAt.
    rewrite (weight_all_finished _ Hall).
    rewrite (inv_workers_length _ j Hj), length_batchAt.
    unfold maxConcurrent in *. lia.
Qed.

(** As long as the call has not returned, it can take a step. *)
Lemma can_step s j :
  shapeInv j -> returned j = None ->
  exists e c, ownStep e = true /\ step e (s, j) = Some c.
Proof.
  intros Hj Hret. destruct (existsb isPending (workers j)) eqn:Hp.
  - destruct (existsb_isPending_first _ Hp) as [k Hk].
    pose proof (firstPending_Some _ _ Hk) as Hw.
    destruct (numberOf_is_Some _ j k Hj) as [n Hn];
      [now apply lookup_lt_Some in Hw|].
    exists (Start (clock j)). cbn [step ownStep].
    rewrite Z.ltb_irrefl, Hk, Hn.
    destruct (checkNumber_begin _ _ _ _). eauto.
  - destruct (forallb isFinished (workers j)) eqn:Hall.
    + exists (NextBatch (clock j + 1000)). cbn [step ownStep].
      unfold returned in Hret. rewrite Hall in *. cbn [andb] in *.
      destruct (_ <? _); [|discriminate]. cbn [andb].
      rewrite Z.leb_refl. eauto.
    + destruct (not_all_finished _ Hall) as (k & w & Hk & Hw).
      destruct (numberOf_is_Some _ j k Hj) as [n Hn];
        [now apply lookup_lt_Some in Hk|].
      destruct w as [|v wake|v|v|r|m|]; try discriminate Hw.
      * now apply existsb_isPending_lookup with (k := k) in Hp.
      * exists (Wake k (Z.max (clock j) wake)). cbn [step ownStep].
        rewrite Hp, Hk, orb_false_r.
        destruct (Z.ltb_spec (Z.max (clock j) wake) (clock j)); [lia|].
        destruct (Z.ltb_spec (Z.max (clock j) wake) wake); [lia|]. eauto.
      * exists (Query k (clock j)). cbn [step ownStep].
        rewrite Hp, Hk, Z.ltb_irrefl. cbn [orb]. eauto.
      * exists (Reply k (clock j) (replied None)). cbn [step ownStep].
        rewrite Hp, Hk, Hn, Z.ltb_irrefl. cbn [orb].
        destruct (checkNumber_reply _ _ _ _ _). eauto.
      * exists (Finish k (clock j)). cbn [step ownStep].
        rewrite Hp, Hk, Hn, Z.ltb_irrefl. cbn [orb]. eauto.
      * exists (Finish k (clock j)). cbn [step ownStep].
        rewrite Hp, Hk, Hn, Z.ltb_irrefl. cbn [orb]. eauto.
Qed.

(** From every state of a call there is a run to its return. *)
Lemma can_finish s j :
  shapeInv j ->
  exists es s' j', run es (s, j) = Some (s', j') /\ is_Some (returned j').
Proof.
  remember (remaining j) as m eqn:Hm. revert s j Hm.
  induction m as [m IH] using lt_wf_ind. intros s j -> Hj.
  destruct (returned j) as [rs|] eqn:Hret.
  - exists [], s, j. rewrite Hret. split; [reflexivity|eauto].
  - destruct (can_step s j Hj Hret) as (e & [s1 j1] & Ho & He).
    pose proof (own_step_decreases e s j s1 j1 Hj Ho He) as Hlt.
    pose proof (step_shapeInv e s j s1 j1 Hj He) as Hj1.
    destruct (IH _ Hlt s1 j1 eq_refl Hj1) as (es & s' & j' & Hrun & Hr).
    exists (e :: es), s', j'. cbn [run]. rewrite He. auto.
Qed.

End Termination.

(** ** The batch engine against the specification *)

Lemma checkNumbers_accepts now ns u s :
  sessionReady s u = true -> 1 <= length ns <= 5000 ->
  exists j0, checkNumbers now ns u s = inr j0.
Proof.
  intros Hr Hlen. unfold checkNumbers. rewrite Hr. cbn [negb].
  destruct (Nat.eqb_spec (length ns) 0); [lia|].
  destruct (Nat.ltb_spec 5000 (length ns)); [lia|]. eauto.
Qed.

Lemma checkNumbers_numbers now ns u s j :
  checkNumbers now ns u s = inr j -> numbers j = ns /\ userId j = u.
Proof.
  unfold checkNumbers.
  repeat match goal with |- context [if ?b then _ else _] => destruct b end;
    try discriminate.
  intros [= <-]. auto.
Qed.

(** The results returned by a call are complete and good. *)
Lemma returned_complete good j rs :
  jobInv good j -> returned j = Some rs ->
  length rs = length (numbers j)
  /\ forall i n, numbers j !! i = Some n ->
       exists r, rs !! i = Some (Some r) /\ good n r.
Proof.
  intros Hj. unfold returned.
  destruct (forallb isFinished (workers j)) eqn:Hall; [|discriminate].
  destruct (_ <? _) eqn:Hmore; [discriminate|]. intros [= <-].
  apply Nat.ltb_ge in Hmore.
  split; [apply (inv_results_length _ j Hj)|].
  intros i n Hn. pose proof (lookup_lt_Some _ _ _ Hn) as Hi.
  assert (Hw : exists r, results j !! i = Some (Some r)).
  { destruct (decide (i < batchStart j)) as [Hlt|Hge].
    - apply (inv_done _ j Hj i Hlt).
    - replace i with (batchStart j + (i - batchStart j)) by lia.
      apply (inv_finished _ j Hj), forallb_isFinished_lookup; [exact Hall|].
      rewrite (inv_workers_length _ j Hj), length_batchAt. lia. }
  destruct Hw as [r Hr]. exists r. split; [exact Hr|].
  destruct (inv_sound _ j Hj i r Hr) as (n' & Hn' & Hg). congruence.
Qed.

(** C2: for a ready session and 1 to 5000 identifiers, [checkNumbers]
    starts, every run of it can be continued to its return, and whatever
    the order in which the callbacks of a batch complete, the value returned
    has the length of the input and its entry at index [i] is the result
    for the identifier at index [i]. *)
Theorem checkNumbers_index_aligned (now : Z) (ns : list jsstring) (u : jsstring)
    (s : service) :
  sessionReady s u = true -> 1 <= length ns <= 5000 ->
  exists j0, checkNumbers now ns u s = inr j0
    /\ (forall es s' j' rs,
          run es (s, j0) = Some (s', j') -> returned j' = Some rs ->
          length rs = length ns
          /\ forall i n, ns !! i = Some n ->
               exists r, rs !! i = Some (Some r)
                         /\ CheckResult.originalNumber r = n)
    /\ (forall es s' j',
          run es (s, j0) = Some (s', j') ->
          exists es' s'' j'',
            run (es ++ es') (s, j0) = Some (s'', j'') /\ is_Some (returned j'')).
Proof.
  intros Hr Hlen. destruct (checkNumbers_accepts now ns u s Hr Hlen) as [j0 Hj0].
  exists j0. split; [exact Hj0|].
  destruct (checkNumbers_numbers _ _ _ _ _ Hj0) as [Hns _].
  set (good := fun (n : jsstring) (r : CheckResult.t) => CheckResult.originalNumber r = n).
  assert (Hinv : forall es s' j', run es (s, j0) = Some (s', j') -> jobInv good j').
  { intros es s' j' Hrun.
    eapply proj2, (run_inv (fun _ => True) good);
      [..|eapply (checkNumbers_inv good), Hj0|exact Hrun]; try reflexivity; auto.
    apply map_Forall_lookup. auto. }
  split.
  - intros es s' j' rs Hrun Hret.
    destruct (run_numbers _ _ _ _ _ Hrun) as [Hn _]. rewrite Hns in Hn.
    rewrite <- Hn. apply (returned_complete good j' rs (Hinv _ _ _ Hrun) Hret).
  - intros es s' j' Hrun.
    assert (Hshape : shapeInv j').
    { eapply proj2, (run_inv (fun _ => True) (fun _ _ => True));
        [..|eapply (checkNumbers_inv (fun _ _ => True)), Hj0|exact Hrun]; auto.
      apply map_Forall_lookup. auto. }
    destruct (can_finish s' j' Hshape) as (es' & s'' & j'' & Hrun' & Hret).
    exists es', s'', j''. split; [|exact Hret].
    rewrite (run_app _ _ _ _ Hrun). exact Hrun'.
Qed.

Import Scenario.

Lemma checkNumbers_index_aligned_witness :
  exists s' j' rs,
    outOfOrderEnd = Some (s', j') /\ returned j' = Some rs
    /\ length rs = length threeNumbers
    /\ forall i n, threeNumbers !! i = Some n ->
         exists r, rs !! i = Some (Some r) /\ CheckResult.originalNumber r = n.
Proof.
  destruct (checkNumbers_index_aligned 10000 threeNumbers userA readyService)
    as (j0 & Hj0 & Hal & _); [vm_compute; reflexivity|vm_compute; lia|].
  assert (E : exists c rs, outOfOrderEnd = Some c /\ returned c.2 = Some rs)
    by (vm_compute; eexists; eexists; split; reflexivity).
  destruct E as ([s' j'] & rs & E & Hret). exists s', j', rs.
  split; [exact E|]. split; [exact Hret|].
  unfold outOfOrderEnd in E. rewrite Hj0 in E.
  exact (Hal _ _ _ _ E Hret).
Defined.


(** C4: [setCachedResult] leaves the cache as it is for a result of status
    [error], and a cache without [error] entries has none after any run of
    [checkNumbers], whatever other handlers do in between. *)
Theorem error_results_never_cached (now : Z) (ns : list jsstring) (u : jsstring)
    (s : service) (j0 : job) (es : list event) (s' : service) (j' : job) :
  noErrorCached (numberCache s) ->
  checkNumbers now ns u s = inr j0 ->
  run es (s, j0) = Some (s', j') ->
  (forall t key r cache,
     CheckResult.status_ r = CheckResult.error ->
     setCachedResult t key r cache = cache)
  /\ noErrorCached (numberCache s').
Proof.
  intros Hc Hj0 Hrun. split.
  - intros t key r cache Hr. unfold setCachedResult. now rewrite Hr.
  - eapply proj1,
      (run_inv (fun r => CheckResult.status_ r <> CheckResult.error) (fun _ _ => True));
      [..|exact Hc|eapply (checkNumbers_inv (fun _ _ => True)), Hj0|exact Hrun];
      auto; discriminate.
Qed.

Lemma error_results_never_cached_witness :
  exists s' j', outOfOrderEnd = Some (s', j')
    /\ results j' !! 0 = Some (Some (failedResult (js "03211234567")
                                       (validateNumber (js "03211234567"))
                                       (js "timeout")))
    /\ noErrorCached (numberCache s').
Proof.
  assert (E : exists c, outOfOrderEnd = Some c
    /\ results c.2 !! 0 = Some (Some (failedResult (js "03211234567")
                                        (validateNumber (js "03211234567"))
                                        (js "timeout"))))
    by (vm_compute; eexists; split; reflexivity).
  destruct E as ([s' j'] & E & Hres). exists s', j'.
  split; [exact E|]. split; [exact Hres|].
  unfold outOfOrderEnd in E.
  destruct (checkNumbers 10000 threeNumbers userA readyService) as [|j0] eqn:Hj0;
    [discriminate E|].
  apply (error_results_never_cached 10000 threeNumbers userA readyService j0
           outOfOrder s' j'); [apply cacheAll_empty|exact Hj0|exact E].
Defined.


(** C8: in every run of [checkNumbers] on a cache whose entries satisfy
    the property (the empty cache of a new service does), every result
    written with status [invalid] has [formattedNumber] and [hasWhatsApp]
    [null]; such a result is what [checkNumber] builds whenever
    [validateNumber] rejects the input. *)
Theorem invalid_results_are_null (now : Z) (ns : list jsstring) (u : jsstring)
    (s : service) (j0 : job) (es : list event) (s' : service) (j' : job) :
  cacheAll invalidIsNull (numberCache s) ->
  checkNumbers now ns u s = inr j0 ->
  run es (s, j0) = Some (s', j') ->
  (forall i r, results j' !! i = Some (Some r) -> invalidIsNull r)
  /\ (forall t n, isValid (validateNumber n) = false ->
        sessionReady s u = true ->
        (checkNumber_begin t n u s).2 = Settled (invalidResult n (validateNumber n))
        /\ CheckResult.status_ (invalidResult n (validateNumber n))
           = CheckResult.invalid).
Proof.
  intros Hc Hj0 Hrun. split.
  - intros i r Hr.
    assert (Hinv : jobInv (fun _ => invalidIsNull) j').
    { eapply proj2, (run_inv invalidIsNull (fun _ => invalidIsNull));
        [..|exact Hc|eapply (checkNumbers_inv (fun _ => invalidIsNull)), Hj0|exact Hrun];
        try (intros; first [intros H; discriminate H | intros _; split; reflexivity]).
      intros n c Hcached Hst. apply Hcached, Hst. }
    destruct (inv_sound _ j' Hinv i r Hr) as (_ & _ & Hg). exact Hg.
  - intros t n Hv Hr. unfold checkNumber_begin. rewrite Hr, Hv. auto.
Qed.

Lemma invalid_results_are_null_witness :
  exists s' j' r, outOfOrderEnd = Some (s', j')
    /\ results j' !! 1 = Some (Some r)
    /\ CheckResult.status_ r = CheckResult.invalid
    /\ CheckResult.formattedNumber r = None
    /\ CheckResult.hasWhatsApp r = CheckResult.null.
Proof.
  assert (E : exists c r, outOfOrderEnd = Some c /\ results c.2 !! 1 = Some (Some r)
                          /\ CheckResult.status_ r = CheckResult.invalid)
    by (vm_compute; eexists; eexists; repeat split; reflexivity).
  destruct E as ([s' j'] & r & E & Hres & Hst). exists s', j', r.
  split; [exact E|]. split; [exact Hres|]. split; [exact Hst|].
  unfold outOfOrderEnd in E.
  destruct (checkNumbers 10000 threeNumbers userA readyService) as [|j0] eqn:Hj0;
    [discriminate E|].
  destruct (invalid_results_are_null 10000 threeNumbers userA readyService j0
              outOfOrder s' j') as [H _];
    [apply cacheAll_empty|exact Hj0|exact E|].
  exact (H 1 r Hres Hst).
Defined.

(** * Properties of the pacing gate *)

Section Gate.

Local Open Scope Z_scope.


(** Callbacks that reach the gate together are released together: in the
    run [burst] the second and third query both start at 12000. *)
Lemma burst_not_paced : ~ queriesPaced.
Proof.
  intros H.
  assert (E : exists c, burstEnd = Some c
                        /\ queries c.2 = [(userA, 10000); (userA, 12000); (userA, 12000)])
    by (vm_compute; eexists; split; reflexivity).
  destruct E as ([s' j'] & E & Hq). unfold burstEnd in E.
  destruct (checkNumbers 10000 validNumbers userA readyService) as [|j0] eqn:Hj0;
    [discriminate E|].
  assert (Hr : sessionReady readyService userA = true) by (vm_compute; reflexivity).
  specialize (H _ _ _ _ _ _ _ _ Hr Hj0 E 1%nat 2%nat userA 12000 12000).
  cbn [snd] in Hq. rewrite Hq in H.
  specialize (H ltac:(lia) eq_refl eq_refl). lia.
Qed.

(** A lookup of [userB] at 10000 makes a lookup of [userA] at 10500 sleep
    until 12000; without it that lookup passes at once. *)
Lemma gate_delays_other_session : ~ gatePerSession.
Proof.
  intros H.
  specialize (H 10000 10500 (js "03001234567") (js "03211234567") userA userB
                readyService).
  assert (Hne : userA <> userB) by (vm_compute; discriminate).
  specialize (H Hne ltac:(vm_compute; reflexivity) ltac:(vm_compute; reflexivity)
                ltac:(lia)).
  vm_compute in H. discriminate H.
Qed.

Lemma waitForRateLimit_arrive_sleep now s s' wake :
  waitForRateLimit_arrive now s = (s', Some wake) ->
  s' = s /\ wake = lastCheckTime s + 2000 /\ now < wake.
Proof.
  unfold waitForRateLimit_arrive, checkInterval.
  destruct (Z.ltb_spec (now - lastCheckTime s) 2000); [|discriminate].
  intros [= <- <-]. repeat split; lia.
Qed.

Lemma waitForRateLimit_arrive_pass now s s' :
  waitForRateLimit_arrive now s = (s', None) ->
  lastCheckTime s + 2000 <= now /\ s' = setLastCheckTime now s.
Proof.
  unfold waitForRateLimit_arrive, checkInterval.
  destruct (Z.ltb_spec (now - lastCheckTime s) 2000); [discriminate|].
  intros [= <-]. split; [lia|reflexivity].
Qed.

Lemma checkNumber_begin_any_session now n u1 u2 s :
  sessionReady s u1 = true -> sessionReady s u2 = true ->
  checkNumber_begin now n u1 s = checkNumber_begin now n u2 s.
Proof. intros H1 H2. unfold checkNumber_begin. now rewrite H1, H2. Qed.

End Gate.

(** C6, as stated, fails. *)
Lemma pacing_gate_counterexample : ~ (queriesPaced /\ gatePerSession).
Proof. intros [H _]. exact (burst_not_paced H). Qed.

(** C6 (amended): the service has one pacing gate, shared by all its
    sessions.  A lookup that reaches it less than 2 seconds after the last
    recorded query time sleeps until 2 seconds after that time, and is
    released no earlier; otherwise it passes at once and records the clock
    reading.  The gate does not look at the session: the lookups of two
    ready sessions are treated alike. *)
Theorem pacing_gate_shared (now : Z) (n u1 u2 : jsstring) (s : service) :
  sessionReady s u1 = true -> sessionReady s u2 = true ->
  (checkInterval = 2000
   /\ (forall s' wake, waitForRateLimit_arrive now s = (s', Some wake) ->
         s' = s /\ wake = lastCheckTime s + 2000 /\ now < wake)
   /\ (forall s', waitForRateLimit_arrive now s = (s', None) ->
         lastCheckTime s + 2000 <= now /\ s' = setLastCheckTime now s)
   /\ (forall k t j v wake c,
         workers j !! k = Some (Sleeping v wake) ->
         step (Wake k t) (s, j) = Some c -> wake <= t /\ lastCheckTime c.1 = t)
   /\ checkNumber_begin now n u1 s = checkNumber_begin now n u2 s)%Z.
Proof.
  intros H1 H2. split; [reflexivity|].
  split; [intros s' wake; apply waitForRateLimit_arrive_sleep|].
  split; [intros s'; apply waitForRateLimit_arrive_pass|].
  split; [|now apply checkNumber_begin_any_session].
  intros k t j v wake c Hk. cbn [step]. rewrite Hk.
  destruct (_ || _); [discriminate|].
  destruct (Z.ltb_spec t wake); [discriminate|].
  intros [= <-]. split; [lia|reflexivity].
Qed.

Lemma pacing_gate_shared_witness :
  checkNumber_begin 10500 (js "03211234567") userA
    (checkNumber_begin 10000 (js "03001234567") userB readyService).1
  = checkNumber_begin 10500 (js "03211234567") userB
      (checkNumber_begin 10000 (js "03001234567") userB readyService).1.
Proof.
  apply (pacing_gate_shared 10500 (js "03211234567") userA userB
           (checkNumber_begin 10000 (js "03001234567") userB readyService).1);
    vm_compute; reflexivity.
Defined.

(** * Properties of the session manager *)

Section Sessions.

Local Open Scope Z_scope.

Lemma userSessions_endClient u w :
  userSessions (svc (endClient u w)) = userSessions (svc w).
Proof. unfold endClient. destruct (clients (svc w) !! u); reflexivity. Qed.

Lemma disk_endClient u w : disk (endClient u w) = disk w.
Proof. unfold endClient. destruct (clients (svc w) !! u); reflexivity. Qed.

Lemma made_endClient u w : made (endClient u w) = made w.
Proof. unfold endClient. destruct (clients (svc w) !! u); reflexivity. Qed.

Lemma ended_endClient u w :
  ended (endClient u w)
  = ended w ++ match clients (svc w) !! u with
               | Some c => [sockId c]
               | None => []
               end.
Proof.
  unfold endClient. destruct (clients (svc w) !! u); cbn [ended];
    [reflexivity|now rewrite app_nil_r].
Qed.

(** A call for a session whose initialization is in flight and not stuck
    returns at once and changes nothing. *)
Lemma initializeUserSession_in_flight now ok u sock w us :
  userSessions (svc w) !! u = Some us -> isInitializing us = true ->
  now - initStartTime us <= stuckThreshold ->
  initializeUserSession_begin now u sock w = (w, false)
  /\ initializeUserSession now ok u sock w = w.
Proof.
  intros Hus Hi Hd.
  assert (E : initializeUserSession_begin now u sock w = (w, false)).
  { unfold initializeUserSession_begin, stuckThreshold in *. rewrite Hus, Hi.
    destruct (Z.eqb_spec (initStartTime us) 0);
      match goal with |- context [?a <? ?b] => destruct (Z.ltb_spec a b) end;
      try lia; reflexivity. }
  split; [exact E|]. unfold initializeUserSession. now rewrite E.
Qed.

(** A call for a session stuck in its initialization tears the stale
    socket down and starts afresh. *)
Lemma initializeUserSession_stuck now u sock w us :
  userSessions (svc w) !! u = Some us -> isInitializing us = true ->
  stuckThreshold < now - initStartTime us -> initStartTime us <> 0 ->
  isReady us = false ->
  let w' := initializeUserSession now true u sock w in
  ended w' = ended w ++ match clients (svc w) !! u with
                        | Some c => [sockId c]
                        | None => []
                        end
  /\ made w' = S (made w)
  /\ clients (svc w') !! u
     = Some (mkSocket (made w) (default false (disk w !! userSessionPath u)))
  /\ userSessions (svc w') !! u = Some (mkSession false true sock false now).
Proof.
  intros Hus Hi Hd H0 Hr.
  unfold initializeUserSession, initializeUserSession_begin, stuckThreshold in *.
  rewrite Hus, Hi.
  destruct (Z.eqb_spec (initStartTime us) 0); [contradiction|].
  destruct (Z.ltb_spec 60000 (now - initStartTime us)); [|lia].
  cbn [emit svc]. rewrite userSessions_endClient.
  cbn [updateSession setSvc svc setRegistry userSessions].
  rewrite lookup_alter_eq, Hus, Hr. cbn [fmap option_fmap option_map withFlags isReady].
  unfold initializeUserSession_connect.
  cbn [emit putSession setSvc svc setRegistry disk made ended clients
       userSessions].
  rewrite !disk_endClient, !made_endClient, !ended_endClient.
  cbn [updateSession setSvc svc setRegistry disk made ended clients].
  rewrite !lookup_insert_eq. repeat split.
Qed.

(** The directory removed by [restart] is not the one from which
    [initializeUserSession] loads the credentials. *)
Lemma restartSessionPath_differs u : restartSessionPath u <> userSessionPath u.
Proof. unfold restartSessionPath, userSessionPath. cbn. discriminate. Qed.

(** [restart] leaves the stored credentials of the user in place, and the
    socket it builds loads them. *)
Lemma restart_keeps_credentials now now' u sock w w' :
  restart now now' true u sock w = Some w' ->
  disk w !! userSessionPath u = Some true ->
  disk w' !! userSessionPath u = Some true
  /\ clients (svc w') !! u = Some (mkSocket (made w) true).
Proof.
  unfold restart. destruct (now' <? now + 2000); [discriminate|].
  intros [= <-] Hd.
  assert (Hd' : disk (restart_begin u w) !! userSessionPath u = Some true).
  { unfold restart_begin. cbn [setDisk disk updateSession setSvc].
    rewrite disk_endClient, lookup_delete_ne by apply restartSessionPath_differs.
    exact Hd. }
  assert (Hm : made (restart_begin u w) = made w).
  { unfold restart_begin. cbn [setDisk made updateSession setSvc].
    apply made_endClient. }
  assert (Hs : forall us, userSessions (svc (restart_begin u w)) !! u = Some us ->
                          isReady us = false /\ isInitializing us = false).
  { unfold restart_begin. cbn [setDisk svc updateSession setSvc setRegistry userSessions].
    rewrite lookup_alter_eq, userSessions_endClient.
    destruct (userSessions (svc w) !! u); cbn; [|discriminate].
    intros us [= <-]. auto. }
  revert Hd' Hm Hs. generalize (restart_begin u w). intros w1 Hd' Hm Hs.
  unfold initializeUserSession, initializeUserSession_begin.
  destruct (userSessions (svc w1) !! u) as [us|] eqn:Hus.
  - destruct (Hs us eq_refl) as [Hr Hi]. cbn beta iota. rewrite Hi, Hus, Hr.
    unfold initializeUserSession_connect.
    cbn [emit putSession setSvc svc setRegistry disk made clients].
    rewrite Hd', Hm, lookup_insert_eq. auto.
  - rewrite Hus. unfold initializeUserSession_connect.
    cbn [emit putSession setSvc svc setRegistry disk made clients].
    rewrite Hd', Hm, lookup_insert_eq. auto.
Qed.

(** When [initializeUserSession] goes on to build a socket, it has
    recorded a session that is initializing since [now]. *)
Lemma initializeUserSession_begin_proceeds now u sock w w' :
  initializeUserSession_begin now u sock w = (w', true) ->
  userSessions (svc w') !! u = Some (mkSession false true sock false now)
  /\ made w' = made w.
Proof.
  unfold initializeUserSession_begin.
  destruct (userSessions (svc w) !! u) as [us|] eqn:Hus.
  - destruct (isInitializing us).
    + destruct (_ <? _); [|discriminate].
      destruct (match userSessions _ !! u with Some us0 => isReady us0 | None => false end);
        [discriminate|].
      intros [= <-]. cbn [emit putSession setSvc svc setRegistry userSessions made].
      rewrite lookup_insert_eq, made_endClient. auto.
    + rewrite Hus. destruct (isReady us); [discriminate|].
      intros [= <-]. cbn [emit putSession setSvc svc setRegistry userSessions made].
      rewrite lookup_insert_eq. auto.
  - rewrite Hus. intros [= <-].
    cbn [emit putSession setSvc svc setRegistry userSessions made].
    rewrite lookup_insert_eq. auto.
Qed.


Lemma flagsExclusive_handlers r i sock now us :
  flagsExclusive (mkSession false true sock false now)
  /\ flagsExclusive (withFlags r false us)
  /\ flagsExclusive (withFlags false i us)
  /\ flagsExclusive (resetSession us).
Proof. unfold flagsExclusive. cbn. repeat split; auto; discriminate. Qed.

End Sessions.

(** ** The session manager against the specification *)

(** C5: let a first call of [initializeUserSession] at [t1] go on to build
    its socket.  A second call for the same user at [t2], while the session
    is initializing and no more than 60 seconds have elapsed, changes
    nothing, whether it comes after the first call or during it: one socket
    is built in all.  When more than 60 seconds have elapsed, the second
    call ends the stale socket and builds a fresh one for a session that is
    initializing since [t2]. *)
Theorem initializeUserSession_second_call (t1 t2 : Z) (userId sock1 sock2 : jsstring)
    (w0 : world) :
  (initializeUserSession_begin t1 userId sock1 w0).2 = true ->
  let w1 := initializeUserSession t1 true userId sock1 w0 in
  (made w1 = S (made w0)
   /\ (t2 - t1 <= 60000 -> forall ok,
         initializeUserSession t2 ok userId sock2 w1 = w1
         /\ initializeUserSession_connect true userId sock1
              (initializeUserSession t2 ok userId sock2
                 (initializeUserSession_begin t1 userId sock1 w0).1) = w1)
   /\ (60000 < t2 - t1 -> t1 <> 0 ->
         let w2 := initializeUserSession t2 true userId sock2 w1 in
         ended w2 = ended w1 ++ [made w0]
         /\ made w2 = S (S (made w0))
         /\ (exists stored,
               clients (svc w2) !! userId = Some (mkSocket (S (made w0)) stored))
         /\ userSessions (svc w2) !! userId
            = Some (mkSession false true sock2 false t2)))%Z.
Proof.
  intros Hgo w1. subst w1.
  destruct (initializeUserSession_begin t1 userId sock1 w0) as [wb b] eqn:Hb.
  cbn [fst snd] in *. subst b.
  assert (E1 : initializeUserSession t1 true userId sock1 w0
               = initializeUserSession_connect true userId sock1 wb)
    by (unfold initializeUserSession; now rewrite Hb).
  rewrite E1. clear E1.
  destruct (initializeUserSession_begin_proceeds _ _ _ _ _ Hb) as [Hus Hmade].
  set (w1 := initializeUserSession_connect true userId sock1 wb).
  assert (Hus1 : userSessions (svc w1) !! userId
                 = Some (mkSession false true sock1 false t1)) by exact Hus.
  assert (Hm1 : made w1 = S (made w0)) by (cbn; now rewrite Hmade).
  split; [exact Hm1|]. split.
  - intros Hd ok. split.
    + now apply (initializeUserSession_in_flight t2 ok userId sock2 w1 _ Hus1).
    + fold w1. now rewrite (proj2 (initializeUserSession_in_flight t2 ok userId sock2 wb _
                            Hus eq_refl Hd)).
  - intros Hd Ht1.
    destruct (initializeUserSession_stuck t2 userId sock2 w1 _ Hus1 eq_refl Hd Ht1
                eq_refl) as (He & Hm & Hc & Hs).
    assert (Hc1 : clients (svc w1) !! userId
                  = Some (mkSocket (made wb)
                            (default false (disk wb !! userSessionPath userId)))).
    { cbn. apply lookup_insert_eq. }
    rewrite Hc1 in He. cbn [sockId] in He. rewrite Hmade in He.
    rewrite Hm1 in Hm, Hc. eauto.
Qed.

Lemma initializeUserSession_second_call_witness :
  made (initializeUserSession 30000 true userA (js "socketB")
          (initializeUserSession 1000 true userA (js "socketA") newWorld))
  = 1%nat.
Proof.
  destruct (initializeUserSession_second_call 1000 30000 userA (js "socketA")
              (js "socketB") newWorld) as (Hm & Ha & _);
    [vm_compute; reflexivity|].
  rewrite (proj1 (Ha ltac:(lia) true)). exact Hm.
Defined.

(** C3 (the code departs from it): [userA] has paired an account, so the
    credentials are stored in the directory that [initializeUserSession]
    loads.  [restart] ends the socket, waits 2 seconds and initializes the
    session again, but the directory it removes is another one: the
    credentials are still stored afterwards and the new socket loads them,
    so that no new pairing takes place. *)
Theorem restart_leaves_credentials :
  disk pairedWorld !! userSessionPath userA = Some true
  /\ clients (svc pairedWorld) !! userA = Some (mkSocket 0 false)
  /\ restartSessionPath userA <> userSessionPath userA
  /\ restart 20000 21999 true userA (js "socketA") pairedWorld = None
  /\ exists w', restart 20000 22000 true userA (js "socketA") pairedWorld = Some w'
       /\ ended w' = [0]
       /\ disk w' !! userSessionPath userA = Some true
       /\ clients (svc w') !! userA = Some (mkSocket 1 true)
       /\ userSessions (svc w') !! userA
          = Some (mkSession false true (js "socketA") false 22000).
Proof.
  split; [vm_compute; reflexivity|]. split; [vm_compute; reflexivity|].
  split; [apply restartSessionPath_differs|]. split; [vm_compute; reflexivity|].
  eexists. split; [vm_compute; reflexivity|].
  repeat split; vm_compute; reflexivity.
Qed.

(** * Further properties of the number normalizer *)

Section NormalizerMore.

(** The international rule, on a string of digits, accepts by length
    alone. *)
Lemma validateInternationalNumber_accepts d :
  allDigits d = true ->
  isValid (validateInternationalNumber d) = true
  <-> 7 <= length d <= 15
      /\ (if startsWith d (js "00") then 9 <= length d else length d <= 14).
Proof.
  intros Hd. split.
  - intros Hv.
    destruct (isValid (validateInternationalNumber d)) eqn:E; [|discriminate].
    clear Hv. revert E.
    pose proof (allDigits_drop 1 d Hd) as Hd1.
    pose proof (allDigits_drop 2 d Hd) as Hd2.
    unfold validateInternationalNumber, substringFrom, testPlusDigits.
    rewrite (startsWith_plus_digits d Hd).
    split_atoms; cbn [js app];
      change (N_of_ascii "+") with 43%N; change (N_of_ascii "9") with 57%N;
      change (N_of_ascii "2") with 50%N;
      cbn [N.eqb Pos.eqb andb allDigits forallb];
      change (isDigit 57) with true; change (isDigit 50) with true;
      fold (allDigits d) (allDigits (drop 1 d)) (allDigits (drop 2 d));
      rewrite ?Hd, ?Hd1, ?Hd2; cbn [andb length];
      split_atoms; cbn [isValid]; try discriminate; intros _;
      prop_of_bools; rewrite ?length_drop in *; lia.
  - intros [Hlen H00].
    destruct (isValid (validateInternationalNumber d)) eqn:E; [reflexivity|].
    apply (validateInternationalNumber_invalid d Hd) in E.
    destruct (startsWith d (js "00")); intuition (try discriminate; lia).
Qed.

End NormalizerMore.

(** The digits of an input decide whether [validateNumber] accepts it:
    it does exactly when there are 7 to 15 of them, at least 9 when they
    start with 00 and at most 14 when they do not. *)
Theorem validateNumber_accepts_iff (number : jsstring) :
  isValid (validateNumber number) = true
  <-> 7 <= length (removeNonDigits number) <= 15
      /\ (if startsWith (removeNonDigits number) (js "00")
          then 9 <= length (removeNonDigits number)
          else length (removeNonDigits number) <= 14).
Proof.
  rewrite <- cleanNumber_digits.
  pose proof (cleanNumber_allDigits number) as Hd.
  rewrite <- (validateInternationalNumber_accepts _ Hd). split.
  - intros Hv. pose proof Hv as Hv'. now rewrite (validateNumber_valid _ Hv) in Hv'.
  - intros Hv. unfold validateNumber.
    destruct (cleanNumber number) as [|c d] eqn:Hc; [discriminate Hv|].
    now rewrite Hv.
Qed.

Section NormalizerResults.

Lemma validatePakistaniNumber_invalid_fields f :
  pkValid (validatePakistaniNumber f) = false ->
  pkNetwork (validatePakistaniNumber f) = None
  /\ pkError (validatePakistaniNumber f) <> None.
Proof.
  unfold validatePakistaniNumber.
  repeat next_test; try discriminate; intros _; split; try reflexivity; discriminate.
Qed.

(** Inputs with the same digits get the same verdict. *)
Lemma validateNumber_same_digits s1 s2 :
  removeNonDigits s1 = removeNonDigits s2 ->
  isValid (validateNumber s1) = isValid (validateNumber s2)
  /\ formattedNumber (validateNumber s1) = formattedNumber (validateNumber s2)
  /\ error (validateNumber s1) = error (validateNumber s2)
  /\ network (validateNumber s1) = network (validateNumber s2).
Proof.
  intros H. unfold validateNumber. rewrite !cleanNumber_digits, H.
  destruct (removeNonDigits s2) as [|c d]; [auto|].
  destruct (isValid (validateInternationalNumber (c :: d))); [auto|].
  destruct (formatNumber (c :: d)); auto.
Qed.

(** An input whose digits the international rule accepts gets the
    result of that rule. *)
Lemma validateNumber_of_digits s d :
  removeNonDigits s = d ->
  isValid (validateInternationalNumber d) = true ->
  validateNumber s = validateInternationalNumber d.
Proof.
  intros Hs Hv. unfold validateNumber. rewrite cleanNumber_digits, Hs.
  destruct d as [|c d]; [discriminate Hv|]. now rewrite Hv.
Qed.

End NormalizerResults.

(** What [validateNumber] returns: for an accepted input, the digits of
    the input as [originalNumber], a canonical identifier made of [+] and
    7 to 14 digits, no error and the tag "International"; for a rejected
    input, the input itself as [originalNumber], no canonical identifier,
    no tag and an error. *)
Theorem validateNumber_result_shape (number : jsstring) :
  if isValid (validateNumber number)
  then originalNumber (validateNumber number) = removeNonDigits number
       /\ (exists d, formattedNumber (validateNumber number) = Some (js "+" ++ d)
                     /\ allDigits d = true /\ 7 <= length d <= 14)
       /\ error (validateNumber number) = None
       /\ network (validateNumber number) = Some (js "International")
  else originalNumber (validateNumber number) = number
       /\ formattedNumber (validateNumber number) = None
       /\ network (validateNumber number) = None
       /\ error (validateNumber number) <> None.
Proof.
  destruct (isValid (validateNumber number)) eqn:Hv.
  - pose proof Hv as Hv'. rewrite (validateNumber_valid _ Hv) in Hv' |- *.
    apply validateInternationalNumber_valid in Hv' as (f & -> & Ht & _).
    cbn [originalNumber formattedNumber error network].
    rewrite cleanNumber_digits. repeat split.
    destruct (testPlusDigits_shape f Ht) as (d & -> & Hd & Hlen). eauto.
  - revert Hv. unfold validateNumber.
    destruct (cleanNumber number) as [|c d]; [intros _; repeat split; discriminate|].
    destruct (isValid (validateInternationalNumber (c :: d))) eqn:E.
    + intros H. rewrite H in E. discriminate E.
    + destruct (formatNumber (c :: d)) as [f|];
        [|intros _; repeat split; discriminate].
      cbn [isValid originalNumber formattedNumber error network]. intros Hp.
      destruct (validatePakistaniNumber_invalid_fields f Hp) as [Hn He].
      rewrite Hp. auto.
Qed.

(** Spaces, dashes and any other characters that are not digits play no
    part in the verdict: two inputs with the same digits are accepted or
    rejected alike, with the same canonical identifier, error and tag. *)
Theorem validateNumber_ignores_formatting (s1 s2 : jsstring) :
  removeNonDigits s1 = removeNonDigits s2 ->
  isValid (validateNumber s1) = isValid (validateNumber s2)
  /\ formattedNumber (validateNumber s1) = formattedNumber (validateNumber s2)
  /\ error (validateNumber s1) = error (validateNumber s2)
  /\ network (validateNumber s1) = network (validateNumber s2).
Proof. apply validateNumber_same_digits. Qed.

Lemma validateNumber_ignores_formatting_witness :
  formattedNumber (validateNumber (js " +92 (321) 123-4567 "))
  = formattedNumber (validateNumber (js "923211234567")).
Proof.
  apply (validateNumber_ignores_formatting (js " +92 (321) 123-4567 ")
           (js "923211234567")).
  vm_compute. reflexivity.
Defined.

Section Spellings.

Lemma removeNonDigits_digits d : allDigits d = true -> removeNonDigits d = d.
Proof. apply forallb_filter_id. Qed.

Lemma allDigits_app a b :
  allDigits a = true -> allDigits b = true -> allDigits (a ++ b) = true.
Proof. unfold allDigits. rewrite forallb_app. now intros -> ->. Qed.

Lemma testPlusDigits_intro r :
  allDigits r = true -> 7 <= length r <= 14 -> testPlusDigits (js "+" ++ r) = true.
Proof.
  intros Hr Hlen. cbn [js app testPlusDigits]. rewrite Hr.
  destruct (Nat.leb_spec 7 (length r)), (Nat.leb_spec (length r) 14); try lia.
  reflexivity.
Qed.

(** The international rule on a local number: ten digits after a zero,
    the first of them a 3. *)
Lemma validateInternationalNumber_local d :
  allDigits d = true -> length d = 10 -> startsWith d (js "3") = true ->
  validateInternationalNumber (js "0" ++ d)
  = mkValidation true (js "0" ++ d) (Some (js "+92" ++ d)) None
      (Some (js "International")).
Proof.
  intros Hd Hlen H3.
  assert (Ht : testPlusDigits (js "+" ++ (js "92" ++ d)) = true).
  { apply testPlusDigits_intro; [now apply allDigits_app|].
    rewrite length_app, Hlen. cbn. lia. }
  destruct d as [|c d]; [discriminate|].
  cbn [js startsWith] in H3. apply andb_prop in H3 as [H3 _].
  apply N.eqb_eq in H3. subst c.
  unfold validateInternationalNumber, substringFrom.
  assert (Hl : length (js "0" ++ N_of_ascii "3" :: d) = 11)
    by (cbn [js app length] in *; lia).
  rewrite Hl.
  change (startsWith (js "0" ++ N_of_ascii "3" :: d) (js "+")) with false.
  change (startsWith (js "0" ++ N_of_ascii "3" :: d) (js "00")) with false.
  change (startsWith (js "0" ++ N_of_ascii "3" :: d) (js "0")) with true.
  change (startsWith (js "0" ++ N_of_ascii "3" :: d) (js "03")) with true.
  cbn [negb andb orb Nat.ltb Nat.leb Nat.eqb].
  change (js "+92" ++ drop 1 (js "0" ++ N_of_ascii "3" :: d))
    with (js "+" ++ (js "92" ++ N_of_ascii "3" :: d)).
  rewrite Ht. reflexivity.
Qed.

(** ... and on the same number written with 00 and the country code. *)
Lemma validateInternationalNumber_00 d :
  allDigits d = true -> length d = 10 ->
  validateInternationalNumber (js "0092" ++ d)
  = mkValidation true (js "0092" ++ d) (Some (js "+92" ++ d)) None
      (Some (js "International")).
Proof.
  intros Hd Hlen.
  assert (Ht : testPlusDigits (js "+" ++ (js "92" ++ d)) = true).
  { apply testPlusDigits_intro; [now apply allDigits_app|].
    rewrite length_app, Hlen. cbn. lia. }
  unfold validateInternationalNumber, substringFrom.
  assert (Hl : length (js "0092" ++ d) = 14) by (cbn [js app length]; lia).
  rewrite Hl.
  change (startsWith (js "0092" ++ d) (js "+")) with false.
  change (startsWith (js "0092" ++ d) (js "00")) with true.
  cbn [negb andb orb Nat.ltb Nat.leb Nat.eqb].
  change (js "+" ++ drop 2 (js "0092" ++ d)) with (js "+" ++ (js "92" ++ d)).
  rewrite Ht. reflexivity.
Qed.

End Spellings.

(** The spellings of one mobile number, ten digits [d] that start with 3:
    with a leading 0, with the country code 92, with +92 and with 0092 it
    gets the canonical identifier +92[d]; written bare, it only gets a [+]
    in front. *)
Theorem validateNumber_spellings (d : jsstring) :
  allDigits d = true -> length d = 10 -> startsWith d (js "3") = true ->
  formattedNumber (validateNumber (js "0" ++ d)) = Some (js "+92" ++ d)
  /\ formattedNumber (validateNumber (js "92" ++ d)) = Some (js "+92" ++ d)
  /\ formattedNumber (validateNumber (js "+92" ++ d)) = Some (js "+92" ++ d)
  /\ formattedNumber (validateNumber (js "0092" ++ d)) = Some (js "+92" ++ d)
  /\ formattedNumber (validateNumber d) = Some (js "+" ++ d).
Proof.
  intros Hd Hlen H3.
  assert (H92 : allDigits (js "92" ++ d) = true) by (now apply allDigits_app).
  assert (Hplus : validateNumber (js "+92" ++ d)
                  = mkValidation true (js "92" ++ d) (Some (js "+92" ++ d)) None
                      (Some (js "International"))).
  { apply (revalidate_same (js "92" ++ d) H92).
    - cbn [js app length]. lia.
    - reflexivity.
    - cbn [js app length]. lia. }
  assert (Hbare : validateNumber (js "+" ++ d)
                  = mkValidation true d (Some (js "+" ++ d)) None
                      (Some (js "International"))).
  { apply (revalidate_same d Hd); [lia| |lia].
    destruct d as [|c d]; [discriminate|].
    cbn [js startsWith] in H3 |- *. apply andb_prop in H3 as [H3 _].
    apply N.eqb_eq in H3. subst c. reflexivity. }
  split; [|split; [|split; [|split]]].
  - rewrite (validateNumber_of_digits (js "0" ++ d) (js "0" ++ d)).
    + now rewrite validateInternationalNumber_local.
    + apply removeNonDigits_digits. now apply (allDigits_app (js "0")).
    + now rewrite validateInternationalNumber_local.
  - destruct (validateNumber_same_digits (js "92" ++ d) (js "+92" ++ d))
      as (_ & -> & _); [reflexivity|]. now rewrite Hplus.
  - now rewrite Hplus.
  - rewrite (validateNumber_of_digits (js "0092" ++ d) (js "0092" ++ d)).
    + now rewrite validateInternationalNumber_00.
    + apply removeNonDigits_digits. now apply (allDigits_app (js "0092")).
    + now rewrite validateInternationalNumber_00.
  - destruct (validateNumber_same_digits d (js "+" ++ d)) as (_ & -> & _);
      [reflexivity|]. now rewrite Hbare.
Qed.

Lemma validateNumber_spellings_witness :
  formattedNumber (validateNumber (js "03001234567")) = Some (js "+923001234567")
  /\ formattedNumber (validateNumber (js "923001234567")) = Some (js "+923001234567")
  /\ formattedNumber (validateNumber (js "+923001234567")) = Some (js "+923001234567")
  /\ formattedNumber (validateNumber (js "00923001234567")) = Some (js "+923001234567")
  /\ formattedNumber (validateNumber (js "3001234567")) = Some (js "+3001234567").
Proof.
  apply (validateNumber_spellings (js "3001234567")); vm_compute; reflexivity.
Defined.

(** * Properties of the prefix table and of the national rule *)

Section PrefixTable.

Lemma tableLookup_In t c v : tableLookup t c = Some v -> In c (map fst t).
Proof.
  induction t as [|[k v'] t IH]; cbn [tableLookup map fst]; [discriminate|].
  destruct (bool_decide_reflect (k = c)) as [->|_]; [now left|].
  intros H. right. now apply IH.
Qed.

Lemma In_tableLookup t c : In c (map fst t) -> is_Some (tableLookup t c).
Proof.
  induction t as [|[k v] t IH]; cbn [tableLookup map fst]; [intros []|].
  destruct (bool_decide_reflect (k = c)) as [->|Hne]; [eauto|].
  intros [H|H]; [contradiction|now apply IH].
Qed.

Lemma isValidNetworkCode_In c :
  isValidNetworkCode c = true <-> In c (map fst pakistaniNetworks).
Proof.
  unfold isValidNetworkCode. split.
  - destruct (tableLookup pakistaniNetworks c) eqn:E; [|discriminate].
    intros _. eapply tableLookup_In, E.
  - intros H. now destruct (In_tableLookup _ _ H) as [v ->].
Qed.

Lemma isValidNetworkCode_shape c :
  isValidNetworkCode c = true -> keyShape c = true.
Proof.
  intros H. apply isValidNetworkCode_In in H.
  assert (Hall : forallb keyShape (map fst pakistaniNetworks) = true)
    by (vm_compute; reflexivity).
  rewrite forallb_forall in Hall. now apply Hall.
Qed.

Lemma In_insertKey k k' ks : In k (insertKey k' ks) <-> k = k' \/ In k ks.
Proof.
  induction ks as [|a ks IH]; cbn [insertKey In]; [intuition|].
  destruct (_ <=? _)%N; cbn [In]; rewrite ?IH; intuition.
Qed.

Lemma In_sortedKeys k ks : In k (foldr insertKey [] ks) <-> In k ks.
Proof.
  induction ks as [|a ks IH]; cbn [foldr In]; [reflexivity|].
  rewrite In_insertKey, IH. intuition.
Qed.

Lemma startsWith_split s p :
  startsWith s p = true -> s = p ++ drop (length p) s.
Proof.
  revert s. induction p as [|a p IH]; intros s; cbn [startsWith]; [reflexivity|].
  destruct s as [|b s]; [discriminate|]. intros H.
  apply andb_prop in H as [Hab H]. apply N.eqb_eq in Hab. subst b.
  cbn [app length drop]. f_equal. now apply IH.
Qed.

Lemma startsWith_app p s : startsWith (p ++ s) p = true.
Proof.
  induction p as [|a p IH]; cbn [app startsWith]; [reflexivity|].
  now rewrite N.eqb_refl, IH.
Qed.

Lemma startsWith_take3 d :
  startsWith (take 3 d) (js "3") = startsWith d (js "3").
Proof. destruct d as [|c d]; reflexivity. Qed.

End PrefixTable.

(** [getSupportedNetworks] lists exactly the codes that
    [isValidNetworkCode] accepts, each once and in ascending order: 300 to
    329, 340 to 349, 354 and 355; every one of them is made of three digits
    that start with 3. *)
Theorem getSupportedNetworks_codes :
  (forall c, In c getSupportedNetworks <-> isValidNetworkCode c = true)
  /\ (forall c, isValidNetworkCode c = true ->
        length c = 3 /\ startsWith c (js "3") = true /\ allDigits c = true)
  /\ NoDup getSupportedNetworks
  /\ map keyValue getSupportedNetworks
     = map N.of_nat (seq 300 30 ++ seq 340 10 ++ [354; 355]).
Proof.
  split; [|split; [|split]].
  - intros c. unfold getSupportedNetworks.
    now rewrite In_sortedKeys, isValidNetworkCode_In.
  - intros c H. apply isValidNetworkCode_shape in H. unfold keyShape in H.
    prop_of_bools. auto.
  - refine (bool_decide_unpack (NoDup getSupportedNetworks) _).
    vm_compute. exact I.
  - vm_compute. reflexivity.
Qed.

Lemma validatePakistaniNumber_accepted f :
  pkValid (validatePakistaniNumber f) = true ->
  (exists d, f = js "+92" ++ d /\ length d = 10 /\ allDigits d = true
             /\ isValidNetworkCode (take 3 d) = true)
  /\ pkNetwork (validatePakistaniNumber f)
     = tableLookup pakistaniNetworks (take 3 (drop 3 f))
  /\ is_Some (pkNetwork (validatePakistaniNumber f)).
Proof.
  unfold validatePakistaniNumber, substringFrom, substringTo, testTenDigits.
  repeat next_test; try discriminate. intros _. prop_of_bools.
  split; [|split; [reflexivity|]].
  - exists (drop 3 f). repeat split; auto.
    now apply (startsWith_split f (js "+92")).
  - match goal with
    | H : isValidNetworkCode ?c = true |- _ =>
      unfold isValidNetworkCode in H;
      destruct (tableLookup pakistaniNetworks c); [eauto|discriminate H]
    end.
Qed.

(** [validatePakistaniNumber] accepts exactly the strings made of +92 and
    ten digits of which the first three are a code of the table, and it
    answers with the carrier that the table gives for that code. *)
Theorem validatePakistaniNumber_accepts_iff (f : jsstring) :
  (pkValid (validatePakistaniNumber f) = true
   <-> exists d, f = js "+92" ++ d /\ length d = 10 /\ allDigits d = true
                 /\ isValidNetworkCode (take 3 d) = true)
  /\ (pkValid (validatePakistaniNumber f) = true ->
      pkError (validatePakistaniNumber f) = None
      /\ pkNetwork (validatePakistaniNumber f)
         = tableLookup pakistaniNetworks (take 3 (drop 3 f))
      /\ is_Some (pkNetwork (validatePakistaniNumber f))).
Proof.
  split; [split|].
  - unfold validatePakistaniNumber, substringFrom, substringTo, testTenDigits.
    repeat next_test; try discriminate. intros _. prop_of_bools.
    exists (drop 3 f). repeat split; auto.
    now apply (startsWith_split f (js "+92")).
  - intros (d & -> & Hlen & Hd & Hc).
    pose proof (isValidNetworkCode_shape _ Hc) as Hs. unfold keyShape in Hs.
    prop_of_bools. rewrite startsWith_take3 in *.
    unfold validatePakistaniNumber, substringFrom, substringTo, testTenDigits.
    rewrite (startsWith_app (js "+92") d).
    change (drop 3 (js "+92" ++ d)) with d.
    change (bool_decide (js "+92" ++ d = [])) with false.
    rewrite Hlen, Hd, Hc. cbn [negb andb orb Nat.eqb].
    match goal with H : startsWith d (js "3") = true |- _ => rewrite H end.
    reflexivity.
  - unfold validatePakistaniNumber, substringFrom, substringTo.
    repeat next_test; try discriminate. intros _. split; [reflexivity|].
    split; [reflexivity|]. prop_of_bools.
    match goal with
    | H : isValidNetworkCode ?c = true |- _ =>
      unfold isValidNetworkCode in H;
      destruct (tableLookup pakistaniNetworks c); [eauto|discriminate H]
    end.
Qed.

(** [getNetworkInfo] gives no information exactly when
    [validatePakistaniNumber] rejects the number; otherwise it gives the
    number back, its three-digit code, which is a code of the table, and
    the carrier that [validatePakistaniNumber] reports. *)
Theorem getNetworkInfo_agrees (f : jsstring) :
  match getNetworkInfo f with
  | Some i =>
    pkValid (validatePakistaniNumber f) = true
    /\ fullNumber i = f
    /\ f = js "+92" ++ code i ++ drop 6 f
    /\ isValidNetworkCode (code i) = true
    /\ name i = pkNetwork (validatePakistaniNumber f)
    /\ is_Some (name i)
  | None => pkValid (validatePakistaniNumber f) = false
  end.
Proof.
  unfold getNetworkInfo.
  destruct (pkValid (validatePakistaniNumber f)) eqn:Hv; [|reflexivity].
  cbn [negb fullNumber code name].
  destruct (validatePakistaniNumber_accepted f Hv)
    as ((d & -> & Hlen & Hdig & Hc) & Hnet & Hsome).
  change (drop 3 (js "+92" ++ d)) with d in *.
  change (drop 6 (js "+92" ++ d)) with (drop 3 d).
  repeat split; auto.
  - now rewrite take_drop.
  - now rewrite <- Hnet.
Qed.

Section Recognition.

Lemma startsWith_92_not_00 d :
  startsWith d (js "92") = true -> startsWith d (js "00") = false.
Proof.
  destruct d as [|a d]; [discriminate|]. cbn [js startsWith].
  intros H. apply andb_prop in H as [H _]. apply N.eqb_eq in H. now subst a.
Qed.

Lemma startsWith_03_not_00 d :
  startsWith d (js "03") = true -> startsWith d (js "00") = false.
Proof.
  destruct d as [|a [|b d]]; try discriminate; cbn [js startsWith].
  - now rewrite andb_false_r.
  - intros H. apply andb_prop in H as [_ H]. apply andb_prop in H as [H _].
    apply N.eqb_eq in H. subst b. now rewrite andb_false_r.
Qed.

Lemma startsWith_3_not_00 d :
  startsWith d (js "3") = true -> startsWith d (js "00") = false.
Proof.
  destruct d as [|a d]; [discriminate|]. cbn [js startsWith].
  intros H. apply andb_prop in H as [H _]. apply N.eqb_eq in H. now subst a.
Qed.

End Recognition.

(** A number that [isPakistaniMobile] recognizes has at least ten digits,
    and [validateNumber] accepts it exactly when it has at most fourteen. *)
Theorem isPakistaniMobile_validated (number : jsstring) :
  isPakistaniMobile number = true ->
  10 <= length (removeNonDigits number)
  /\ (isValid (validateNumber number) = true
      <-> length (removeNonDigits number) <= 14).
Proof.
  assert (Hiff : isValid (validateNumber number) = true
                 <-> isValid (validateInternationalNumber (removeNonDigits number)) = true).
  { rewrite <- cleanNumber_digits. split.
    - intros Hv. pose proof Hv as Hv'. now rewrite (validateNumber_valid _ Hv) in Hv'.
    - intros Hv. now rewrite (validateNumber_of_digits number (cleanNumber number)
                                (eq_sym (cleanNumber_digits number)) Hv). }
  rewrite Hiff. clear Hiff.
  assert (Hd : allDigits (removeNonDigits number) = true) by apply forallb_filter.
  rewrite (validateInternationalNumber_accepts _ Hd).
  unfold isPakistaniMobile. rewrite cleanNumber_digits.
  set (d := removeNonDigits number) in *.
  destruct (startsWith d (js "92") && (12 <=? length d)) eqn:E1.
  - intros _. apply andb_prop in E1 as [Hs Hl]. apply Nat.leb_le in Hl.
    rewrite (startsWith_92_not_00 d Hs). lia.
  - clear E1. destruct (startsWith d (js "03") && (11 <=? length d)) eqn:E2.
    + intros _. apply andb_prop in E2 as [Hs Hl]. apply Nat.leb_le in Hl.
      rewrite (startsWith_03_not_00 d Hs). lia.
    + clear E2.
      destruct (startsWith d (js "3") && (10 <=? length d)) eqn:E3; [|discriminate].
      intros _. apply andb_prop in E3 as [Hs Hl]. apply Nat.leb_le in Hl.
      rewrite (startsWith_3_not_00 d Hs). lia.
Qed.

Lemma isPakistaniMobile_validated_witness :
  10 <= length (removeNonDigits (js "0321-1234567"))
  /\ (isValid (validateNumber (js "0321-1234567")) = true
      <-> length (removeNonDigits (js "0321-1234567")) <= 14).
Proof.
  apply (isPakistaniMobile_validated (js "0321-1234567")). vm_compute. reflexivity.
Defined.

(** The identifier that [checkNumber] asks the network about, for an
    accepted number: the digits of the canonical identifier, 7 to 14 of
    them, followed by "@s.whatsapp.net". *)
Theorem whatsappId_digits (number : jsstring) :
  isValid (validateNumber number) = true ->
  exists d, formattedNumber (validateNumber number) = Some (js "+" ++ d)
    /\ formatForWhatsApp (formattedNumber (validateNumber number)) = Some d
    /\ WhatsAppService.whatsappId (validateNumber number) = d ++ js "@s.whatsapp.net"
    /\ allDigits d = true /\ 7 <= length d <= 14.
Proof.
  intros Hv. destruct (formattedNumber (validateNumber number)) as [c|] eqn:Hc.
  - destruct (validateNumber_canonical_shape number c Hv Hc) as (d & -> & Hd & Hlen).
    exists d. unfold WhatsAppService.whatsappId. rewrite Hc. auto.
  - pose proof Hv as Hv'. rewrite (validateNumber_valid _ Hv) in Hv', Hc.
    apply validateInternationalNumber_valid in Hv' as (f & E & _).
    rewrite E in Hc. discriminate Hc.
Qed.

Lemma whatsappId_digits_witness :
  exists d, formattedNumber (validateNumber (js "0321 1234567")) = Some (js "+" ++ d)
    /\ formatForWhatsApp (formattedNumber (validateNumber (js "0321 1234567"))) = Some d
    /\ WhatsAppService.whatsappId (validateNumber (js "0321 1234567"))
       = d ++ js "@s.whatsapp.net"
    /\ allDigits d = true /\ 7 <= length d <= 14.
Proof.
  apply (whatsappId_digits (js "0321 1234567")). vm_compute. reflexivity.
Defined.

Section Formatting.

Lemma matchMobile_digits s m : matchMobile s = Some m -> allDigits m = true.
Proof.
  destruct s as [|c r]; [discriminate|]. unfold matchMobile.
  destruct (_ && _ && _) eqn:E; [|discriminate]. intros [= <-].
  apply andb_prop in E as [E Hr]. apply andb_prop in E as [Hc _].
  apply N.eqb_eq in Hc. subst c. cbn [allDigits forallb]. exact Hr.
Qed.

Lemma matchPatternHere_digits s m :
  matchPatternHere s = Some m -> allDigits m = true.
Proof.
  unfold matchPatternHere.
  repeat next_test; intros [= <-] || intros H;
    eauto using matchMobile_digits; try discriminate.
Qed.

Lemma matchPattern_digits s m : matchPattern s = Some m -> allDigits m = true.
Proof.
  induction s as [|c s IH]; cbn [matchPattern].
  - destruct (matchPatternHere []) eqn:E; [|discriminate].
    intros [= <-]. eauto using matchPatternHere_digits.
  - destruct (matchPatternHere (c :: s)) eqn:E; [|exact IH].
    intros [= <-]. eauto using matchPatternHere_digits.
Qed.

End Formatting.

(** On a string of digits, [formatNumber] gives [null] only for fewer
    than 7 or more than 15 digits, and what it gives otherwise is always a
    [+] followed by digits only. *)
Theorem formatNumber_shape (d : jsstring) :
  allDigits d = true ->
  match formatNumber d with
  | Some f => 7 <= length d /\ exists r, f = js "+" ++ r /\ allDigits r = true
  | None => length d < 7 \/ 15 < length d
  end.
Proof.
  intros Hd. pose proof (allDigits_drop 1 d Hd) as Hd1.
  pose proof (allDigits_drop 2 d Hd) as Hd2.
  assert (H92 : forall r, allDigits r = true -> allDigits (js "92" ++ r) = true)
    by (intros r Hr; now apply allDigits_app).
  destruct (formatNumber d) as [f|] eqn:E; revert E;
    unfold formatNumber, substringFrom; rewrite (startsWith_plus_digits d Hd);
    destruct (12 <? length d) eqn:E12;
    repeat next_test; try discriminate; intros E;
    try (injection E as <-); prop_of_bools;
    try lia; try (subst d; cbn [length]; lia);
    repeat match goal with
    | H : matchPattern _ = Some _ |- _ => apply matchPattern_digits in H
    end;
    (split; [lia|]);
    first [ exists d; split; [reflexivity|assumption]
          | exists (drop 2 d); split; [reflexivity|assumption]
          | eexists (js "92" ++ _); split; [reflexivity|apply H92; assumption] ].
Qed.

Lemma formatNumber_shape_witness :
  match formatNumber (js "03211234567") with
  | Some f => 7 <= length (js "03211234567")
              /\ exists r, f = js "+" ++ r /\ allDigits r = true
  | None => length (js "03211234567") < 7 \/ 15 < length (js "03211234567")
  end.
Proof. apply (formatNumber_shape (js "03211234567")). vm_compute. reflexivity. Defined.

(** * Further properties of the result cache and of the batch engine *)

Section CacheRoundTrip.

Local Open Scope Z_scope.

Lemma setCachedResult_lookup now key r cache :
  CheckResult.status_ r <> CheckResult.error ->
  setCachedResult now key r cache !! key = Some (mkEntry r now).
Proof.
  intros Hr. unfold setCachedResult.
  assert (E : <[key := mkEntry r now]> cache !! key = Some (mkEntry r now))
    by apply lookup_insert_eq.
  assert (E' : cleanupCache now (<[key := mkEntry r now]> cache) !! key
               = Some (mkEntry r now)).
  { unfold cleanupCache. apply map_lookup_filter_Some. split; [exact E|].
    cbn. unfold cacheExpiry. lia. }
  destruct (CheckResult.status_ r); try contradiction;
    destruct (_ <? _)%nat; assumption.
Qed.

Lemma setCachedResult_lookup_other now key r cache k e :
  k <> key -> cache !! k = Some e -> now - timestamp e < cacheExpiry ->
  setCachedResult now key r cache !! k = Some e.
Proof.
  intros Hk He Ht. unfold setCachedResult.
  assert (E : <[key := mkEntry r now]> cache !! k = Some e)
    by (rewrite lookup_insert_ne; auto).
  assert (E' : cleanupCache now (<[key := mkEntry r now]> cache) !! k = Some e).
  { unfold cleanupCache. apply map_lookup_filter_Some. split; [exact E|].
    cbn. lia. }
  destruct (CheckResult.status_ r); try assumption;
    destruct (_ <? _)%nat; assumption.
Qed.

Lemma setCache_same s : setCache (numberCache s) s = s.
Proof. now destruct s. Qed.

End CacheRoundTrip.

(** A result stored with [setCachedResult] is what [getCachedResult]
    returns for its key until it is one hour old, whatever the size of the
    cache: the cleanup of a full cache never removes the entry just written,
    nor any other entry younger than one hour. *)
Theorem cache_round_trip (now t : Z) (key : option jsstring) (r : CheckResult.t)
    (cache : gmap (option jsstring) cacheEntry) :
  CheckResult.status_ r <> CheckResult.error ->
  (t - now < cacheExpiry)%Z ->
  getCachedResult t key (setCachedResult now key r cache)
  = (Some r, setCachedResult now key r cache)
  /\ forall k e, k <> key -> cache !! k = Some e ->
       (now - timestamp e < cacheExpiry)%Z ->
       setCachedResult now key r cache !! k = Some e.
Proof.
  intros Hr Ht. split.
  - unfold getCachedResult. rewrite (setCachedResult_lookup now key r cache Hr).
    cbn [timestamp result]. now destruct (Z.ltb_spec (t - now) cacheExpiry); [|lia].
  - intros k e. apply setCachedResult_lookup_other.
Qed.

Lemma cache_round_trip_witness :
  getCachedResult 3599999 (Some (js "+923211234567"))
    (setCachedResult 0 (Some (js "+923211234567"))
       (validResult (js "03211234567") (validateNumber (js "03211234567")) (Some true))
       ∅)
  = (Some (validResult (js "03211234567") (validateNumber (js "03211234567"))
             (Some true)),
     setCachedResult 0 (Some (js "+923211234567"))
       (validResult (js "03211234567") (validateNumber (js "03211234567")) (Some true))
       ∅).
Proof.
  apply (cache_round_trip 0 3599999 (Some (js "+923211234567"))
           (validResult (js "03211234567") (validateNumber (js "03211234567"))
              (Some true)) ∅);
    [discriminate|reflexivity].
Defined.

(** Once the network has answered for a number, a later lookup of any
    input with the same canonical identifier, less than one hour after the
    answer, is served from the cache: it returns the stored answer with
    [fromCache] set and the new input as [originalNumber], and it leaves the
    service as it is, so that it neither passes the pacing gate nor queries
    the network. *)
Theorem checkNumber_served_from_cache (t0 t : Z) (n n' u : jsstring)
    (first : option bool) (s : service) :
  isValid (validateNumber n') = true ->
  formattedNumber (validateNumber n') = formattedNumber (validateNumber n) ->
  sessionReady s u = true ->
  (t - t0 < cacheExpiry)%Z ->
  let s1 := (checkNumber_reply t0 n (validateNumber n) (replied first) s).1 in
  checkNumber_begin t n' u s1
  = (s1, Settled (CheckResult.mk n' (formattedNumber (validateNumber n))
                    CheckResult.valid
                    (match first with
                     | Some b => CheckResult.boolean b
                     | None => CheckResult.undefined
                     end)
                    None (network (validateNumber n)) (Some true))).
Proof.
  intros Hv Hf Hr Ht s1.
  assert (Hr1 : sessionReady s1 u = true) by exact Hr.
  unfold checkNumber_begin. rewrite Hr1, Hv, Hf. cbn [negb].
  subst s1. cbn [checkNumber_reply fst numberCache setCache].
  unfold getCachedResult.
  rewrite (setCachedResult_lookup t0 (formattedNumber (validateNumber n))
             (validResult n (validateNumber n) first) (numberCache s))
    by discriminate.
  cbn [timestamp result].
  destruct (Z.ltb_spec (t - t0) cacheExpiry); [reflexivity|lia].
Qed.

Lemma checkNumber_served_from_cache_witness :
  (checkNumber_begin 20000 (js "+92 321 1234567") userA
     (checkNumber_reply 10000 (js "03211234567") (validateNumber (js "03211234567"))
        (replied (Some true)) readyService).1).2
  = Settled (CheckResult.mk (js "+92 321 1234567") (Some (js "+923211234567"))
               CheckResult.valid (CheckResult.boolean true) None
               (Some (js "International")) (Some true)).
Proof.
  rewrite (checkNumber_served_from_cache 10000 20000 (js "03211234567")
             (js "+92 321 1234567") userA (Some true) readyService);
    [reflexivity|vm_compute; reflexivity ..].
Defined.

Section Counting.

Variable f : worker -> bool.

Lemma count_insert (ws : list worker) k w w' :
  ws !! k = Some w ->
  length (List.filter f (<[k := w']> ws)) + (if f w then 1 else 0)
  = length (List.filter f ws) + (if f w' then 1 else 0).
Proof.
  revert k. induction ws as [|a ws IH]; intros [|k]; try discriminate.
  - intros [= ->]. change (<[0 := w']> (w :: ws)) with (w' :: ws).
    cbn [List.filter]. destruct (f w), (f w'); cbn [length]; lia.
  - intros H. specialize (IH k H).
    change (<[S k := w']> (a :: ws)) with (a :: <[k := w']> ws).
    cbn [List.filter]. destruct (f a); cbn [length]; lia.
Qed.

Lemma count_replicate n w :
  length (List.filter f (replicate n w)) = if f w then n else 0.
Proof.
  induction n as [|n IH]; [now destruct (f w)|].
  change (replicate (S n) w) with (w :: replicate n w). cbn [List.filter].
  destruct (f w); cbn [length]; lia.
Qed.

Lemma count_le (ws : list worker) : length (List.filter f ws) <= length ws.
Proof. apply filter_length_le. Qed.

End Counting.

Section Reports.

Lemma count_all_finished ws :
  forallb isFinished ws = true -> length (List.filter isFinished ws) = length ws.
Proof.
  intros H. rewrite (forallb_filter_id isFinished ws H). reflexivity.
Qed.

Lemma count_before_finished ws :
  forallb isFinished ws = true -> length (List.filter beforeQuery ws) = 0.
Proof.
  induction ws as [|w ws IH]; [reflexivity|]. cbn [forallb List.filter].
  intros H. apply andb_prop in H as [Hw H]. destruct w; try discriminate Hw.
  now apply IH.
Qed.

Lemma checkNumber_begin_counts now n u s :
  isFinished (checkNumber_begin now n u s).2 = false.
Proof.
  pose proof (checkNumber_begin_not_Finished now n u s) as H.
  now destruct (checkNumber_begin now n u s).2.
Qed.

Lemma checkNumbers_progressInv now ns u s j :
  checkNumbers now ns u s = inr j -> progressInv j /\ queryInv j.
Proof.
  unfold checkNumbers.
  repeat match goal with |- context [if ?b then _ else _] => destruct b end;
    try discriminate.
  intros [= <-]. unfold progressInv, queryInv.
  cbn [progress completed numbers batchStart workers queries length].
  rewrite !count_replicate, length_replicate. cbn [isFinished beforeQuery].
  split; [split; [reflexivity|split; [|lia]]|lia].
  intros i e H. destruct i; discriminate H.
Qed.

(** Every step keeps the invariants of the reports and of the queries. *)
Ltac keep_reports :=
  split; [split; [assumption|split; [assumption|lia]]|lia].

Lemma step_progressInv e s j s' j' :
  shapeInv j -> progressInv j -> queryInv j ->
  step e (s, j) = Some (s', j') -> progressInv j' /\ queryInv j'.
Proof.
  intros Hj (Hlen & Hrep & Hcnt) Hq. unfold step, progressInv, queryInv in *.
  destruct e as [now|k now|k now|k now r|k now|now|cl us| |now n u|now|now n r].
  - destruct (now <? clock j)%Z; [discriminate|].
    destruct (firstPending (workers j)) as [k|] eqn:Hk; [|discriminate].
    destruct (numberOf k j) as [n|]; [|discriminate].
    pose proof (checkNumber_begin_counts now n (userId j) s) as Hf.
    destruct (checkNumber_begin now n (userId j) s) as [s1 w]; cbn [snd] in Hf.
    intros [= <- <-]. apply firstPending_Some in Hk.
    cbn [setWorker progress completed numbers batchStart workers queries].
    pose proof (count_insert isFinished _ _ _ w Hk) as C1.
    pose proof (count_insert beforeQuery _ _ _ w Hk) as C2.
    rewrite Hf in C1. cbn [isFinished beforeQuery] in C1, C2.
    rewrite length_insert. destruct (beforeQuery w); keep_reports.
  - destruct (_ || _); [discriminate|].
    destruct (workers j !! k) as [[]|] eqn:Hk; try discriminate.
    destruct (now <? wake)%Z; [discriminate|]. intros [= <- <-].
    cbn [setWorker progress completed numbers batchStart workers queries].
    pose proof (count_insert isFinished _ _ _ (Passed v) Hk) as C1.
    pose proof (count_insert beforeQuery _ _ _ (Passed v) Hk) as C2.
    cbn [isFinished beforeQuery] in C1, C2.
    rewrite length_insert. keep_reports.
  - destruct (_ || _); [discriminate|].
    destruct (workers j !! k) as [[]|] eqn:Hk; try discriminate. intros [= <- <-].
    cbn [logQuery setWorker progress completed numbers batchStart workers queries].
    pose proof (count_insert isFinished _ _ _ (Querying v) Hk) as C1.
    pose proof (count_insert beforeQuery _ _ _ (Querying v) Hk) as C2.
    cbn [isFinished beforeQuery] in C1, C2.
    rewrite length_insert, length_app. cbn [length]. keep_reports.
  - destruct (_ || _); [discriminate|].
    destruct (workers j !! k) as [[]|] eqn:Hk; try discriminate.
    destruct (numberOf k j) as [n|]; [|discriminate].
    assert (Hs : exists r', (checkNumber_reply now n v r s).2 = Settled r')
      by (destruct r; eexists; reflexivity).
    destruct Hs as [r' Hr'].
    destruct (checkNumber_reply now n v r s) as [s1 w]; cbn [snd] in Hr'.
    intros [= <- <-]. subst w.
    cbn [setWorker progress completed numbers batchStart workers queries].
    pose proof (count_insert isFinished _ _ _ (Settled r') Hk) as C1.
    pose proof (count_insert beforeQuery _ _ _ (Settled r') Hk) as C2.
    cbn [isFinished beforeQuery] in C1, C2.
    rewrite length_insert. keep_reports.
  - destruct (_ || _); [discriminate|].
    destruct (workers j !! k) as [[]|] eqn:Hk; try discriminate;
      destruct (numberOf k j) as [n|] eqn:Hn; try discriminate;
      intros [= <- <-];
      cbn [writeResult progress completed numbers batchStart workers queries];
      pose proof (count_insert isFinished _ _ _ Finished Hk) as C1;
      pose proof (count_insert beforeQuery _ _ _ Finished Hk) as C2;
      cbn [isFinished beforeQuery] in C1, C2;
      rewrite length_insert, length_app; cbn [length];
      (split; [split; [lia|split; [|lia]]|lia]);
      intros i e He;
      (destruct (decide (i < length (progress j))) as [Hi|Hi];
       [rewrite lookup_app_l in He by exact Hi; now apply Hrep
       |rewrite lookup_app_r in He by lia;
        destruct (i - length (progress j)) as [|x] eqn:Hx; [|destruct x; discriminate He];
        injection He as <-; cbn [fst snd];
        repeat split; [lia|];
        unfold numberOf in Hn; apply list_elem_of_In, list_elem_of_lookup; eauto]).
  - destruct (forallb isFinished (workers j)) eqn:Hall; [|discriminate].
    destruct (_ <? _) eqn:Hmore; [|discriminate].
    destruct (_ <=? _)%Z; [|discriminate]. intros [= <- <-].
    apply Nat.ltb_lt in Hmore.
    cbn [nextBatch progress completed numbers batchStart workers queries].
    rewrite !count_replicate, length_replicate. cbn [isFinished beforeQuery].
    rewrite (count_all_finished _ Hall) in Hcnt.
    rewrite (count_before_finished _ Hall) in Hq.
    pose proof (inv_workers_length _ j Hj) as Hw. rewrite length_batchAt in Hw.
    unfold maxConcurrent in *. keep_reports.
  - destruct (existsb _ _); [discriminate|]. intros [= <- <-]. auto.
  - destruct (existsb _ _); [discriminate|]. intros [= <- <-]. auto.
  - destruct (existsb _ _); [discriminate|]. intros [= <- <-]. auto.
  - destruct (existsb _ _); [discriminate|]. intros [= <- <-]. auto.
  - destruct (existsb _ _); [discriminate|]. intros [= <- <-]. auto.
Qed.

Lemma run_progressInv es s j s' j' :
  shapeInv j -> progressInv j -> queryInv j ->
  run es (s, j) = Some (s', j') -> shapeInv j' /\ progressInv j' /\ queryInv j'.
Proof.
  revert s j. induction es as [|e es IH]; intros s j Hj Hp Hq; cbn [run].
  - intros [= <- <-]. auto.
  - destruct (step e (s, j)) as [[s1 j1]|] eqn:He; [|discriminate].
    destruct (step_progressInv e s j s1 j1 Hj Hp Hq He).
    pose proof (step_shapeInv e s j s1 j1 Hj He). now apply IH.
Qed.

End Reports.

Section Bounds.

Lemma batchStart_le good j : jobInv good j -> batchStart j <= length (numbers j).
Proof.
  intros Hj. destruct (decide (batchStart j <= length (numbers j))) as [|Hgt]; [assumption|].
  destruct (inv_done good j Hj (length (numbers j))) as [r Hr]; [lia|].
  apply lookup_lt_Some in Hr. rewrite (inv_results_length good j Hj) in Hr. lia.
Qed.

Lemma workers_bound good j :
  jobInv good j ->
  length (workers j) <= maxConcurrent
  /\ batchStart j + length (workers j) <= length (numbers j).
Proof.
  intros Hj. pose proof (batchStart_le good j Hj).
  rewrite (inv_workers_length good j Hj), length_batchAt. lia.
Qed.

Lemma other_step_job e s j s' j' :
  ownStep e = false -> step e (s, j) = Some (s', j') -> j' = j.
Proof.
  unfold step. destruct e; try discriminate; intros _;
    destruct (existsb _ _); try discriminate; now intros [= <- <-].
Qed.

Lemma run_own_steps es s j s' j' :
  shapeInv j -> run es (s, j) = Some (s', j') ->
  length (List.filter ownStep es) + remaining j' <= remaining j.
Proof.
  revert s j. induction es as [|e es IH]; intros s j Hj; cbn [run List.filter].
  - intros [= <- <-]. cbn. lia.
  - destruct (step e (s, j)) as [[s1 j1]|] eqn:He; [|discriminate].
    intros Hrun. pose proof (step_shapeInv e s j s1 j1 Hj He) as Hj1.
    specialize (IH s1 j1 Hj1 Hrun).
    destruct (ownStep e) eqn:Ho; cbn [length].
    + pose proof (own_step_decreases e s j s1 j1 Hj Ho He). lia.
    + now rewrite (other_step_job e s j s1 j1 Ho He) in IH.
Qed.

Lemma checkNumbers_remaining now ns u s j :
  checkNumbers now ns u s = inr j -> remaining j <= 6 * length ns.
Proof.
  unfold checkNumbers.
  repeat match goal with |- context [if ?b then _ else _] => destruct b end;
    try discriminate.
  intros [= <-]. unfold remaining. cbn [workers numbers batchStart].
  rewrite weight_replicate_Pending, length_replicate, length_batchAt.
  unfold maxConcurrent. lia.
Qed.

Lemma checkNumbers_shapeInv now ns u s j :
  checkNumbers now ns u s = inr j -> shapeInv j.
Proof. apply checkNumbers_inv. Qed.

End Bounds.

(** The progress reports of a call: in every run the [i]-th call of
    [progressCallback] carries the count [i + 1], the length of the input as
    total and one of the input numbers; there are never more reports than
    numbers, and when the call returns there is exactly one per number. *)
Theorem checkNumbers_progress_reports (now : Z) (ns : list jsstring) (u : jsstring)
    (s : service) (j0 : job) (es : list event) (s' : service) (j' : job) :
  checkNumbers now ns u s = inr j0 ->
  run es (s, j0) = Some (s', j') ->
  (forall i c total n, progress j' !! i = Some (c, total, n) ->
     c = S i /\ total = length ns /\ In n ns)
  /\ length (progress j') = completed j'
  /\ completed j' <= length ns
  /\ (forall rs, returned j' = Some rs -> length (progress j') = length ns).
Proof.
  intros Hj0 Hrun.
  destruct (checkNumbers_numbers _ _ _ _ _ Hj0) as [Hns _].
  destruct (run_numbers _ _ _ _ _ Hrun) as [Hn _]. rewrite Hns in Hn.
  destruct (checkNumbers_progressInv _ _ _ _ _ Hj0) as [Hp0 Hq0].
  destruct (run_progressInv es s j0 s' j' (checkNumbers_shapeInv _ _ _ _ _ Hj0)
              Hp0 Hq0 Hrun) as (Hj & (Hlen & Hrep & Hcnt) & _).
  destruct (workers_bound _ j' Hj) as [Hw Hb]. rewrite Hn in *.
  pose proof (count_le isFinished (workers j')) as Hc.
  split; [|split; [exact Hlen|split; [lia|]]].
  - intros i c total n H. destruct (Hrep i _ H) as (H1 & H2 & H3). auto.
  - intros rs. unfold returned.
    destruct (forallb isFinished (workers j')) eqn:Hall; [|discriminate].
    destruct (_ <? _) eqn:Hmore; [discriminate|]. intros _.
    apply Nat.ltb_ge in Hmore. rewrite Hn in Hmore.
    rewrite (count_all_finished _ Hall) in Hcnt.
    rewrite (inv_workers_length _ j' Hj), length_batchAt, Hn in Hcnt.
    pose proof (batchStart_le _ j' Hj) as Hbs. rewrite Hn in Hbs.
    unfold maxConcurrent in *. lia.
Qed.

Lemma checkNumbers_progress_reports_witness :
  exists s' j', outOfOrderEnd = Some (s', j')
    /\ progress j' !! 0 = Some (1, 3, js "+14155550123")
    /\ length (progress j') = length threeNumbers.
Proof.
  assert (E : exists c rs, outOfOrderEnd = Some c /\ returned c.2 = Some rs
                /\ progress c.2 !! 0 = Some (1, 3, js "+14155550123"))
    by (vm_compute; eexists; eexists; repeat split; reflexivity).
  destruct E as ([s' j'] & rs & E & Hret & Hp). exists s', j'.
  split; [exact E|]. split; [exact Hp|].
  unfold outOfOrderEnd in E.
  destruct (checkNumbers 10000 threeNumbers userA readyService) as [|j0] eqn:Hj0;
    [discriminate E|].
  destruct (checkNumbers_progress_reports 10000 threeNumbers userA readyService j0
              outOfOrder s' j' Hj0 E) as (_ & _ & _ & H).
  exact (H rs Hret).
Defined.

(** The load a call puts on the network: in every run at most 5 queries
    are in flight at any moment, and the call issues at most one query per
    input number. *)
Theorem checkNumbers_query_bounds (now : Z) (ns : list jsstring) (u : jsstring)
    (s : service) (j0 : job) (es : list event) (s' : service) (j' : job) :
  checkNumbers now ns u s = inr j0 ->
  run es (s, j0) = Some (s', j') ->
  inFlight j' <= 5 /\ length (queries j') <= length ns.
Proof.
  intros Hj0 Hrun.
  destruct (checkNumbers_numbers _ _ _ _ _ Hj0) as [Hns _].
  destruct (run_numbers _ _ _ _ _ Hrun) as [Hn _]. rewrite Hns in Hn.
  destruct (checkNumbers_progressInv _ _ _ _ _ Hj0) as [Hp0 Hq0].
  destruct (run_progressInv es s j0 s' j' (checkNumbers_shapeInv _ _ _ _ _ Hj0)
              Hp0 Hq0 Hrun) as (Hj & _ & Hq).
  destruct (workers_bound _ j' Hj) as [Hw Hb]. rewrite Hn in *.
  pose proof (count_le isQuerying (workers j')) as Hc.
  unfold queryInv, inFlight, maxConcurrent in *. lia.
Qed.

Lemma checkNumbers_query_bounds_witness :
  exists s' j', burstEnd = Some (s', j')
    /\ inFlight j' <= 5 /\ length (queries j') <= length validNumbers.
Proof.
  assert (E : exists c, burstEnd = Some c)
    by (vm_compute; eexists; reflexivity).
  destruct E as ([s' j'] & E). exists s', j'. split; [exact E|].
  unfold burstEnd in E.
  destruct (checkNumbers 10000 validNumbers userA readyService) as [|j0] eqn:Hj0;
    [discriminate E|].
  exact (checkNumbers_query_bounds 10000 validNumbers userA readyService j0
           burst s' j' Hj0 E).
Defined.

(** A call cannot go on for ever: no run, whatever other handlers do in
    between, contains more than 6 steps of the call per input number. *)
Theorem checkNumbers_step_bound (now : Z) (ns : list jsstring) (u : jsstring)
    (s : service) (j0 : job) (es : list event) (s' : service) (j' : job) :
  checkNumbers now ns u s = inr j0 ->
  run es (s, j0) = Some (s', j') ->
  length (List.filter ownStep es) <= 6 * length ns.
Proof.
  intros Hj0 Hrun.
  pose proof (run_own_steps es s j0 s' j' (checkNumbers_shapeInv _ _ _ _ _ Hj0) Hrun).
  pose proof (checkNumbers_remaining _ _ _ _ _ Hj0). lia.
Qed.

Lemma checkNumbers_step_bound_witness :
  length (List.filter ownStep outOfOrder) <= 6 * length threeNumbers.
Proof.
  assert (E : exists c, outOfOrderEnd = Some c)
    by (vm_compute; eexists; reflexivity).
  destruct E as ([s' j'] & E). unfold outOfOrderEnd in E.
  destruct (checkNumbers 10000 threeNumbers userA readyService) as [|j0] eqn:Hj0;
    [discriminate E|].
  exact (checkNumbers_step_bound 10000 threeNumbers userA readyService j0
           outOfOrder s' j' Hj0 E).
Defined.

(** * Further properties of the session manager *)

Section Registries.

Local Open Scope Z_scope.

Lemma worldInv_newWorld : worldInv newWorld.
Proof.
  split; cbn.
  - intros u us H. now rewrite lookup_empty in H.
  - intros u sock H. now rewrite lookup_empty in H.
  - intros u1 u2 s1 s2 H. now rewrite lookup_empty in H.
  - intros i [].
Qed.

Lemma worldInv_emit to e w : worldInv w -> worldInv (emit to e w).
Proof. intros [? ? ? ?]. split; assumption. Qed.

Lemma worldInv_setDisk d w : worldInv w -> worldInv (setDisk d w).
Proof. intros [? ? ? ?]. split; assumption. Qed.

Lemma worldInv_updateSession u f w :
  (forall us, flagsExclusive (f us)) ->
  worldInv w -> worldInv (updateSession u f w).
Proof.
  intros Hf [H1 H2 H3 H4]. split; try assumption.
  cbn [updateSession setSvc svc setRegistry userSessions]. intros u' us.
  destruct (decide (u = u')) as [<-|Hne].
  - rewrite lookup_alter_eq. destruct (userSessions (svc w) !! u); [|discriminate].
    intros [= <-]. apply Hf.
  - rewrite lookup_alter_ne by exact Hne. apply H1.
Qed.

Lemma worldInv_putSession u us w :
  flagsExclusive us -> worldInv w -> worldInv (putSession u us w).
Proof.
  intros Hus [H1 H2 H3 H4]. split; try assumption.
  cbn [putSession setSvc svc setRegistry userSessions]. intros u' us'.
  destruct (decide (u = u')) as [<-|Hne].
  - rewrite lookup_insert_eq. now intros [= <-].
  - rewrite lookup_insert_ne by exact Hne. apply H1.
Qed.

Lemma worldInv_shutdown_expire u w : worldInv w -> worldInv (shutdown_expire u w).
Proof.
  intros [H1 H2 H3 H4]. split; try assumption.
  cbn [shutdown_expire setSvc svc setRegistry userSessions]. intros u' us'.
  destruct (decide (u = u')) as [<-|Hne].
  - now rewrite lookup_delete_eq.
  - rewrite lookup_delete_ne by exact Hne. apply H1.
Qed.

Lemma worldInv_endClient u w : worldInv w -> worldInv (endClient u w).
Proof.
  intros [H1 H2 H3 H4]. unfold endClient.
  destruct (clients (svc w) !! u) as [sock|] eqn:Hu; [|split; assumption].
  destruct (H2 u sock Hu) as [Hm He].
  split; cbn [svc setRegistry clients userSessions made ended].
  - exact H1.
  - intros u' sock' H'. destruct (decide (u = u')) as [<-|Hne].
    + now rewrite lookup_delete_eq in H'.
    + rewrite lookup_delete_ne in H' by exact Hne.
      destruct (H2 u' sock' H') as [Hm' He']. split; [exact Hm'|].
      rewrite in_app_iff. intros [Hin|[Heq|[]]]; [contradiction|].
      apply Hne. symmetry. eapply H3; eauto.
  - intros u1 u2 s1 s2 Hs1 Hs2.
    destruct (decide (u = u1)) as [<-|Hn1]; [now rewrite lookup_delete_eq in Hs1|].
    destruct (decide (u = u2)) as [<-|Hn2]; [now rewrite lookup_delete_eq in Hs2|].
    rewrite lookup_delete_ne in Hs1, Hs2 by assumption. eauto.
  - intros i. rewrite in_app_iff. intros [Hin|[<-|[]]]; auto.
Qed.

Lemma worldInv_connect ok u sock w :
  worldInv w -> worldInv (initializeUserSession_connect ok u sock w).
Proof.
  intros Hw. unfold initializeUserSession_connect. destruct ok.
  - destruct Hw as [H1 H2 H3 H4].
    split; cbn [svc setRegistry clients userSessions made ended].
    + exact H1.
    + intros u' sock'. destruct (decide (u = u')) as [<-|Hne].
      * rewrite lookup_insert_eq. intros [= <-]. cbn [sockId].
        split; [lia|]. intros Hin. apply H4 in Hin. lia.
      * rewrite lookup_insert_ne by exact Hne. intros H'.
        destruct (H2 u' sock' H'). split; [lia|assumption].
    + intros u1 u2 s1 s2.
      destruct (decide (u = u1)) as [<-|Hn1], (decide (u = u2)) as [<-|Hn2];
        rewrite ?lookup_insert_eq, ?lookup_insert_ne by assumption; auto.
      * intros [= <-] Hs2 E. cbn [sockId] in E. destruct (H2 u2 s2 Hs2). lia.
      * intros Hs1 [= <-] E. cbn [sockId] in E. destruct (H2 u1 s1 Hs1). lia.
      * apply H3.
    + intros i Hin. apply H4 in Hin. lia.
  - apply worldInv_emit, worldInv_updateSession; [|exact Hw].
    intros us. unfold flagsExclusive. cbn. discriminate.
Qed.

Lemma worldInv_begin now u sock w :
  worldInv w -> worldInv (initializeUserSession_begin now u sock w).1.
Proof.
  intros Hw. unfold initializeUserSession_begin.
  assert (Hnew : forall w', worldInv w' ->
    worldInv (if match userSessions (svc w') !! u with
                 | Some us => isReady us
                 | None => false
                 end
              then (emit sock (whatsapp_status (js "ready"))
                      (emit sock whatsapp_ready w'), false)
              else (emit sock (whatsapp_status (js "initializing"))
                      (putSession u (mkSession false true sock false now) w'),
                    true)).1).
  { intros w' Hw'. destruct (match _ with Some _ => _ | None => _ end); cbn [fst].
    - now apply worldInv_emit, worldInv_emit.
    - apply worldInv_emit, worldInv_putSession; [|exact Hw'].
      unfold flagsExclusive. reflexivity. }
  match goal with
  | |- worldInv (match ?X with Some _ => _ | None => _ end).1 =>
    assert (HX : match X with Some w' => worldInv w' | None => True end);
      [|destruct X; [now apply Hnew|exact Hw]]
  end.
  destruct (userSessions (svc w) !! u) as [us|]; [|exact Hw].
  destruct (isInitializing us); [|exact Hw].
  destruct (_ <? _); [|exact I].
  apply worldInv_emit, worldInv_endClient, worldInv_updateSession; [|exact Hw].
  intros us'. unfold flagsExclusive. cbn. discriminate.
Qed.

Lemma worldInv_shutdown u w : worldInv w -> worldInv (shutdown u w).
Proof.
  intros Hw.
  assert (Hall : worldInv
    (mkWorld (setRegistry ∅ ∅ (svc w)) (disk w) (made w)
       (ended w ++ map (fun kv => sockId kv.2) (map_to_list (clients (svc w))))
       (emitted w))).
  { destruct Hw as [H1 H2 H3 H4].
    split; cbn [svc setRegistry clients userSessions made ended].
    - intros u' us H. now rewrite lookup_empty in H.
    - intros u' sock H. now rewrite lookup_empty in H.
    - intros u1 u2 s1 s2 H. now rewrite lookup_empty in H.
    - intros i. rewrite in_app_iff, in_map_iff.
      intros [Hin|([u' sock] & <- & Hin)]; [auto|].
      apply list_elem_of_In, elem_of_map_to_list in Hin. now apply (H2 u' sock). }
  unfold shutdown. destruct u as [[|c u]|]; try exact Hall.
  apply worldInv_setDisk, worldInv_endClient, worldInv_updateSession; [|exact Hw].
  intros us. unfold flagsExclusive. cbn. discriminate.
Qed.

Lemma worldInv_act a w : worldInv w -> worldInv (act a w).
Proof.
  intros Hw. destruct a; cbn [act].
  - now apply worldInv_begin.
  - now apply worldInv_connect.
  - now apply worldInv_setDisk.
  - apply worldInv_emit, worldInv_emit, worldInv_updateSession; [|exact Hw].
    intros us. unfold flagsExclusive. cbn. discriminate.
  - apply worldInv_emit, worldInv_updateSession; [|exact Hw].
    intros us. unfold flagsExclusive. cbn. discriminate.
  - apply worldInv_setDisk, worldInv_updateSession, worldInv_endClient, Hw.
    intros us. unfold flagsExclusive. cbn. discriminate.
  - now apply worldInv_emit, worldInv_setDisk, worldInv_shutdown_expire,
      worldInv_endClient.
  - now apply worldInv_shutdown.
  - now apply worldInv_shutdown_expire.
Qed.

End Registries.

(** Whatever calls and events the service goes through from its start,
    [isReady] and [isInitializing] are never set together; the socket
    registered for a user is one that was built, was never ended, and is
    registered for no other user; and only built sockets are ever ended. *)
Theorem registries_invariant (acts : list action) :
  worldInv (after acts newWorld).
Proof.
  unfold after. generalize worldInv_newWorld. generalize newWorld.
  induction acts as [|a acts IH]; intros w Hw; cbn [foldl]; [exact Hw|].
  apply IH, worldInv_act, Hw.
Qed.

Section Lifecycle.

Local Open Scope Z_scope.







End Lifecycle.

(** When the socket cannot be built, the session is left neither ready nor
    initializing and no socket is counted, so that the next call of
    [initializeUserSession] goes on to build one. *)
Theorem initializeUserSession_retry_after_failure (t1 t2 : Z)
    (userId sock1 sock2 : jsstring) (w0 : world) :
  (initializeUserSession_begin t1 userId sock1 w0).2 = true ->
  let w1 := initializeUserSession t1 false userId sock1 w0 in
  made w1 = made (initializeUserSession_begin t1 userId sock1 w0).1
  /\ userSessions (svc w1) !! userId = Some (mkSession false false sock1 false t1)
  /\ (initializeUserSession_begin t2 userId sock2 w1).2 = true
  /\ made (initializeUserSession t2 true userId sock2 w1) = S (made w1).
Proof.
  intros Hgo w1. subst w1.
  destruct (initializeUserSession_begin t1 userId sock1 w0) as [wb b] eqn:Hb.
  cbn [fst snd] in *. subst b.
  assert (E1 : initializeUserSession t1 false userId sock1 w0
               = initializeUserSession_connect false userId sock1 wb)
    by (unfold initializeUserSession; now rewrite Hb).
  rewrite E1. clear E1.
  destruct (initializeUserSession_begin_proceeds _ _ _ _ _ Hb) as [Hus Hmade].
  set (w1 := initializeUserSession_connect false userId sock1 wb).
  assert (Hus1 : userSessions (svc w1) !! userId
                 = Some (mkSession false false sock1 false t1)).
  { subst w1. unfold initializeUserSession_connect.
    cbn [emit updateSession setSvc svc setRegistry userSessions].
    now rewrite lookup_alter_eq, Hus. }
  assert (Hgo2 : exists w2, initializeUserSession_begin t2 userId sock2 w1 = (w2, true)
                            /\ made w2 = made w1).
  { unfold initializeUserSession_begin. rewrite Hus1. cbn [isInitializing].
    rewrite Hus1. cbn [isReady]. eexists. split; reflexivity. }
  destruct Hgo2 as (w2 & Hb2 & Hm2).
  split; [reflexivity|]. split; [exact Hus1|]. split; [now rewrite Hb2|].
  unfold initializeUserSession. rewrite Hb2.
  unfold initializeUserSession_connect at 1. cbn [made]. now rewrite Hm2.
Qed.

Lemma initializeUserSession_retry_after_failure_witness :
  made (initializeUserSession 5000 true userA (js "socketA")
          (initializeUserSession 1000 false userA (js "socketA") newWorld))
  = 1%nat.
Proof.
  destruct (initializeUserSession_retry_after_failure 1000 5000 userA (js "socketA")
              (js "socketA") newWorld) as (_ & _ & _ & H);
    [vm_compute; reflexivity|].
  rewrite H. vm_compute. reflexivity.
Defined.

(** Once the connection of a user's session has opened, a further call of
    [initializeUserSession] for that user only answers that the session is
    ready: it builds no socket and leaves the registries and the disk as
    they are. *)
Theorem initializeUserSession_when_open (now : Z) (ok : bool)
    (userId sock sock' : jsstring) (w : world) (us : userSession) :
  userSessions (svc w) !! userId = Some us ->
  let w1 := connectionOpen userId sock w in
  initializeUserSession now ok userId sock' w1
  = emit sock' (whatsapp_status (js "ready")) (emit sock' whatsapp_ready w1)
  /\ getStatus userId w1
     = (true, false, bool_decide (is_Some (clients (svc w) !! userId))).
Proof.
  intros Hus w1.
  assert (Hus1 : userSessions (svc w1) !! userId = Some (withFlags true false us)).
  { subst w1. unfold connectionOpen.
    cbn [emit updateSession setSvc svc setRegistry userSessions].
    now rewrite lookup_alter_eq, Hus. }
  split.
  - unfold initializeUserSession, initializeUserSession_begin.
    rewrite Hus1. cbn [withFlags isInitializing]. rewrite Hus1. reflexivity.
  - unfold getStatus. rewrite Hus1. reflexivity.
Qed.

Lemma initializeUserSession_when_open_witness :
  made (initializeUserSession 9000 true userA (js "socketA") pairedWorld)
  = made pairedWorld.
Proof.
  destruct (initializeUserSession_when_open 9000 true userA (js "socketA")
              (js "socketA")
              (saveCreds userA (initializeUserSession 1000 true userA (js "socketA")
                                  newWorld))
              (mkSession false true (js "socketA") false 1000)) as [H _];
    [vm_compute; reflexivity|].
  unfold pairedWorld. rewrite H. reflexivity.
Defined.

(** Whether a closed connection is re-opened.  While the session that
    [shutdown] has marked is still registered, a close event schedules no
    reconnection; after [restart] has cleared the mark, and also once the
    delayed callback of [shutdown] has removed the session, a close event
    schedules one unless the account was logged out.  After [shutdown] the
    user has no socket and the session is neither ready nor initializing. *)
Theorem close_after_shutdown (loggedOut : bool) (c : N) (u sock : jsstring)
    (w : world) (us : userSession) :
  userSessions (svc w) !! (c :: u) = Some us ->
  (connectionClose loggedOut (c :: u) sock (shutdown (Some (c :: u)) w)).2 = false
  /\ (connectionClose loggedOut (c :: u) sock (restart_begin (c :: u) w)).2
     = negb loggedOut
  /\ (connectionClose loggedOut (c :: u) sock
        (shutdown_expire (c :: u) (shutdown (Some (c :: u)) w))).2
     = negb loggedOut
  /\ getStatus (c :: u) (shutdown (Some (c :: u)) w) = (false, false, false).
Proof.
  intros Hus.
  assert (Hs : userSessions (svc (shutdown (Some (c :: u)) w)) !! (c :: u)
               = Some (markDisconnected us)).
  { cbn [shutdown setDisk svc]. rewrite userSessions_endClient.
    cbn [updateSession setSvc svc setRegistry userSessions].
    now rewrite lookup_alter_eq, Hus. }
  assert (Hc : clients (svc (shutdown (Some (c :: u)) w)) !! (c :: u) = None).
  { cbn [shutdown setDisk svc]. unfold endClient.
    cbn [updateSession setSvc svc setRegistry clients].
    destruct (clients (svc w) !! (c :: u)) eqn:E;
      cbn [svc setRegistry clients]; [apply lookup_delete_eq|exact E]. }
  assert (Hr : userSessions (svc (restart_begin (c :: u) w)) !! (c :: u)
               = Some (resetSession us)).
  { unfold restart_begin.
    cbn [setDisk svc updateSession setSvc setRegistry userSessions].
    now rewrite lookup_alter_eq, userSessions_endClient, Hus. }
  split; [|split; [|split]].
  - unfold connectionClose. cbn [snd]. rewrite Hs. cbn [markDisconnected manuallyDisconnected].
    now rewrite andb_false_r.
  - unfold connectionClose. cbn [snd]. rewrite Hr. cbn [resetSession manuallyDisconnected].
    now rewrite andb_true_r.
  - unfold connectionClose. cbn [snd shutdown_expire setSvc svc setRegistry userSessions].
    rewrite lookup_delete_eq. now rewrite andb_true_r.
  - unfold getStatus. rewrite Hs, Hc. reflexivity.
Qed.

Lemma close_after_shutdown_witness :
  (connectionClose false userA (js "socketA") (shutdown (Some userA) pairedWorld)).2
  = false.
Proof.
  apply (close_after_shutdown false (N_of_ascii "u") (js "ser_1") (js "socketA")
           pairedWorld (mkSession true false (js "socketA") false 1000)).
  vm_compute. reflexivity.
Defined.



(** * Properties of the numbers sent by the browser *)

Import WhatsAppFilter.

Section Lines.

Lemma trimStart_head l : headNotSpace (trimStart l).
Proof.
  induction l as [|c l IH]; cbn [trimStart]; [exact I|].
  destruct (isWhiteSpace c) eqn:E; [exact IH|exact E].
Qed.

Lemma trimStart_id l : headNotSpace l -> trimStart l = l.
Proof. destruct l as [|c l]; cbn; [reflexivity|]. now intros ->. Qed.

Lemma trimStart_suffix l : exists ws, l = ws ++ trimStart l.
Proof.
  induction l as [|c l [ws IH]]; [now exists []|]. cbn [trimStart].
  destruct (isWhiteSpace c); [|now exists []].
  exists (c :: ws). cbn. now f_equal.
Qed.

Lemma headNotSpace_prefix a b : headNotSpace (a ++ b) -> headNotSpace a.
Proof. destruct a; [intros _; exact I|exact id]. Qed.

Lemma trim_head l : headNotSpace (trim l).
Proof.
  unfold trim. destruct (trimStart_suffix (rev (trimStart l))) as [ws E].
  apply (f_equal (@rev N)) in E. rewrite rev_involutive, rev_app_distr in E.
  pose proof (trimStart_head l) as H. rewrite E in H.
  now apply headNotSpace_prefix in H.
Qed.

(** Trimming a trimmed string changes nothing. *)
Lemma trim_trim l : trim (trim l) = trim l.
Proof.
  unfold trim at 1. rewrite (trimStart_id _ (trim_head l)).
  unfold trim. rewrite rev_involutive.
  rewrite (trimStart_id _ (trimStart_head _)). reflexivity.
Qed.

Lemma In_trimStart x l : In x (trimStart l) -> In x l.
Proof.
  destruct (trimStart_suffix l) as [ws E]. intros H. rewrite E.
  apply in_or_app. now right.
Qed.

Lemma In_trim x l : In x (trim l) -> In x l.
Proof.
  unfold trim. intros H. apply in_rev, In_trimStart in H.
  now apply in_rev, In_trimStart in H.
Qed.

Lemma splitLines_no_break s line :
  In line (splitLines s) -> ~ In 10%N line.
Proof.
  revert line. induction s as [|c s IH]; intros line; cbn [splitLines].
  - intros [<-|[]] [].
  - destruct (N.eqb_spec c 10).
    + intros [<-|H]; [intros []|now apply IH].
    + destruct (splitLines s) as [|l ls]; cbn [In].
      * intros [<-|[]] [E|[]]. congruence.
      * intros [<-|H].
        -- intros [E|Hin]; [congruence|]. apply (IH l); [now left|exact Hin].
        -- apply IH. now right.
Qed.

Lemma hasDigit_cleanNumber line : hasDigit line = true -> cleanNumber line <> [].
Proof.
  rewrite cleanNumber_digits. unfold hasDigit, removeNonDigits.
  induction line as [|c l IH]; cbn [existsb List.filter]; [discriminate|].
  destruct (isDigit c); [discriminate|]. exact IH.
Qed.

Lemma validateNumber_not_empty_error line :
  cleanNumber line <> [] -> error (validateNumber line) <> Some EmptyOrInvalid.
Proof.
  intros H. unfold validateNumber.
  destruct (cleanNumber line) as [|c d]; [contradiction|].
  destruct (isValid (validateInternationalNumber (c :: d))) eqn:E.
  - apply validateInternationalNumber_valid in E as (f & -> & _). discriminate.
  - destruct (formatNumber (c :: d)); [|discriminate].
    cbn [error]. unfold validatePakistaniNumber.
    repeat next_test; discriminate.
Qed.

End Lines.

(** What [parseNumbers] hands over for checking: every entry is a trimmed
    line of the input without a line break that holds at least one digit,
    so that [validateNumber] never rejects an entry as empty; there are no
    more entries than lines. *)
Theorem parseNumbers_entries (input : jsstring) :
  (forall line, In line (parseNumbers input) ->
     hasDigit line = true /\ trim line = line /\ ~ In 10%N line
     /\ (exists l, In l (splitLines input) /\ line = trim l)
     /\ error (validateNumber line) <> Some EmptyOrInvalid)
  /\ length (parseNumbers input) <= length (splitLines input).
Proof.
  unfold parseNumbers. destruct (trim input) as [|c t] eqn:Ht.
  - split; [intros line []|cbn; lia].
  - split.
    + intros line H. apply filter_In in H as [H Hd].
      apply filter_In in H as [H _]. apply in_map_iff in H as (l & <- & Hl).
      split; [exact Hd|]. split; [apply trim_trim|].
      split; [intros Hin; apply In_trim in Hin;
              exact (splitLines_no_break _ _ Hl Hin)|].
      split; [eauto|].
      now apply validateNumber_not_empty_error, hasDigit_cleanNumber.
    + etransitivity; [apply filter_length_le|].
      etransitivity; [apply filter_length_le|]. now rewrite length_map.
Qed.

Lemma parseNumbers_entries_witness :
  trim (js "0300-1234567") = js "0300-1234567"
  /\ error (validateNumber (js "0300-1234567")) <> Some EmptyOrInvalid.
Proof.
  destruct (parseNumbers_entries
              (js "0321 1234567" ++ [10%N; 10%N] ++ js "abc" ++ [10%N]
               ++ js " 0300-1234567 ")) as [H _].
  destruct (H (js "0300-1234567")) as (_ & Ht & _ & _ & He);
    [vm_compute; auto|]. auto.
Defined.

(** [cleanNumber] returns the digits of its input, in their order, and
    nothing else: trimming the input and dropping a leading [+] make no
    difference to what the removal of the non-digits leaves. *)
Theorem cleanNumber_keeps_digits (number : jsstring) :
  cleanNumber number = List.filter isDigit number
  /\ allDigits (cleanNumber number) = true
  /\ cleanNumber (cleanNumber number) = cleanNumber number.
Proof.
  split; [apply cleanNumber_digits|]. split; [apply cleanNumber_allDigits|].
  rewrite (cleanNumber_digits (cleanNumber number)).
  apply forallb_filter_id, cleanNumber_allDigits.
Qed.
